(** * Mobile Secrets Vault: a shallow embedding of the vault core

    The development follows the Python package [mobile_secrets_vault]:

    - [Base64]              the standard-library codec used by [crypto.py];
    - [CryptoEngine]        [crypto.py]: AES-GCM encrypt / decrypt of one secret;
    - [SecretVersion], [VersionManager]
                            [versioning.py]: the versioned in-memory store;
    - [StorageBackend], [AuditLogger]
                            the persisted document and the audit trail;
    - [MobileSecretsVault]  [vault.py]: the facade ([set], [get], [delete],
                            [rotate], ...).

    Python objects are mutable; here every method takes the state it reads and
    returns the state it leaves behind.  Exceptions are values of type [exn];
    a method of the facade is a computation in the monad [M], which threads
    the whole [Vault] and may raise.

    What lies outside the package is a parameter: the AES-GCM primitive is
    the class [Externals], the operating system's random source and the wall
    clock are oracles stored in the state; what is assumed of the former is
    the class [Lawful].  The codecs of the interpreter ([Base64], UTF-8) are
    written out, with the inputs they refuse.  A small
    instance ([Ref.externals], lawful by [ref_lawful]) is given so that every
    statement can be evaluated on concrete vaults. *)

From Stdlib Require Import List String Ascii ZArith NArith Lia Bool.
From Stdlib Require Import Sorted Permutation.
From Stdlib.Strings Require Import Byte.
Import ListNotations.

Ltac Zify.zify_post_hook ::= Z.to_euclidean_division_equations.

(** ** Python values *)

(** [bytes] objects and [str] objects.  A [str] is a sequence of code
    points; it is held as the bytes of its UTF-8 form, a surrogate code
    point (which a Python [str] may hold on its own, as in ['\ud800'])
    being held as the three bytes the same scheme gives it ([ED A0 80] for
    U+D800).  Such a text is not well-formed UTF-8: it is the kind of text
    [str.encode("utf-8")] refuses. *)
Definition bytes := list byte.
Abbreviation str := string (only parsing).

(** JSON-compatible values, the range of a version's [metadata] mapping. *)
#[local] Unset Elimination Schemes.
Inductive json : Type :=
| JNull
| JBool (b : bool)
| JInt (z : Z)
| JStr (s : str)
| JList (items : list json)
| JDict (items : list (str * json)).
#[local] Set Elimination Schemes.

Definition Metadata := list (str * json).

(** [len] of a [bytes] object. *)
Definition len (b : bytes) : nat := List.length b.

(** The total conversion from a number to a byte (an [unsigned char]). *)
Definition byte_of_N (n : N) : byte :=
  match Byte.of_N (n mod 256) with
  | Some b => b
  | None => x00
  end.

(** ** The UTF-8 codec of [str] and [bytes] *)

Definition in_range (lo hi : N) (b : byte) : bool :=
  (lo <=? Byte.to_N b)%N && (Byte.to_N b <=? hi)%N.

(** A continuation byte, [80..BF]. *)
Definition continuation (b : byte) : bool := in_range 128 191 b.

(** Well-formed UTF-8, as the strict decoder of the interpreter accepts it:
    no overlong form ([C0], [C1], [E0 80..9F], [F0 80..8F]), no surrogate
    ([ED A0..BF]), nothing above U+10FFFF ([F4 90..], [F5..]). *)
Fixpoint well_formed_utf8 (data : bytes) : bool :=
  match data with
  | [] => true
  | b0 :: rest =>
      if in_range 0 127 b0 then well_formed_utf8 rest
      else if in_range 194 223 b0 then
        match rest with
        | b1 :: rest' => continuation b1 && well_formed_utf8 rest'
        | _ => false
        end
      else if in_range 224 239 b0 then
        match rest with
        | b1 :: b2 :: rest' =>
            (if in_range 224 224 b0 then in_range 160 191 b1
             else if in_range 237 237 b0 then in_range 128 159 b1
             else continuation b1)
            && continuation b2 && well_formed_utf8 rest'
        | _ => false
        end
      else if in_range 240 244 b0 then
        match rest with
        | b1 :: b2 :: b3 :: rest' =>
            (if in_range 240 240 b0 then in_range 144 191 b1
             else if in_range 244 244 b0 then in_range 128 143 b1
             else continuation b1)
            && continuation b2 && continuation b3 && well_formed_utf8 rest'
        | _ => false
        end
      else false
  end.

(** [s.encode("utf-8")]: [None] stands for [UnicodeEncodeError], raised
    when the text holds a surrogate. *)
Definition utf8_encode (s : str) : option bytes :=
  let data := list_byte_of_string s in
  if well_formed_utf8 data then Some data else None.

(** [b.decode("utf-8")]: [None] stands for [UnicodeDecodeError]. *)
Definition utf8_decode (b : bytes) : option str :=
  if well_formed_utf8 b then Some (string_of_list_byte b) else None.

(** ** The base64 codec of the Python standard library *)

Module Base64.

Open Scope N_scope.

Definition alphabet : list ascii :=
  list_ascii_of_string
    "ABCDEFGHIJKLMNOPQRSTUVWXYZabcdefghijklmnopqrstuvwxyz0123456789+/".

Definition pad : ascii := "="%char.

(** The character of a 6-bit group. *)
Definition char_of (n : N) : ascii := nth (N.to_nat n) alphabet pad.

(** The 6-bit group of a character of the alphabet; [None] for every other
    character (the entries of the decoding table that are out of range). *)
Definition value_of (c : ascii) : option N :=
  let n := N_of_ascii c in
  if (65 <=? n) && (n <=? 90) then Some (n - 65)
  else if (97 <=? n) && (n <=? 122) then Some (n - 71)
  else if (48 <=? n) && (n <=? 57) then Some (n + 4)
  else if n =? 43 then Some 62
  else if n =? 47 then Some 63
  else None.

(** [binascii.b2a_base64] without the trailing newline: three bytes give
    four characters, the last group is padded with [=]. *)
Fixpoint b2a (data : bytes) : list ascii :=
  match data with
  | [] => []
  | [a] =>
      let x := Byte.to_N a in
      [char_of (x / 4); char_of ((x mod 4) * 16); pad; pad]
  | [a; b] =>
      let x := Byte.to_N a in
      let y := Byte.to_N b in
      [char_of (x / 4); char_of ((x mod 4) * 16 + y / 16);
       char_of ((y mod 16) * 4); pad]
  | a :: b :: c :: rest =>
      let x := Byte.to_N a in
      let y := Byte.to_N b in
      let z := Byte.to_N c in
      char_of (x / 4) :: char_of ((x mod 4) * 16 + y / 16)
        :: char_of ((y mod 16) * 4 + z / 64) :: char_of (z mod 64)
        :: b2a rest
  end.

(** [base64.b64encode(data).decode("utf-8")]. *)
Definition b64encode (data : bytes) : str := string_of_list_ascii (b2a data).

(** [binascii.a2b_base64] in its default, non-strict mode.  The loop keeps
    the position inside the current group of four ([quad_pos]), the bits
    left over from the previous character ([leftchar]) and the number of
    padding characters seen since the last data character ([pads]).
    A character outside the alphabet is skipped; a padding sequence that
    completes a group stops the scan; at the end of the input an
    incomplete group is an error ([None]). *)
Fixpoint a2b (input : list ascii) (quad_pos leftchar pads : N)
  : option bytes :=
  match input with
  | [] => if quad_pos =? 0 then Some [] else None
  | ch :: rest =>
      if Ascii.eqb ch pad then
        if (2 <=? quad_pos) && (4 <=? quad_pos + (pads + 1)) then Some []
        else a2b rest quad_pos leftchar
               (if 2 <=? quad_pos then pads + 1 else pads)
      else
        match value_of ch with
        | None => a2b rest quad_pos leftchar pads
        | Some v =>
            if quad_pos =? 0 then a2b rest 1 v 0
            else if quad_pos =? 1 then
              option_map (cons (byte_of_N (leftchar * 4 + v / 16)))
                         (a2b rest 2 (v mod 16) 0)
            else if quad_pos =? 2 then
              option_map (cons (byte_of_N (leftchar * 16 + v / 4)))
                         (a2b rest 3 (v mod 4) 0)
            else
              option_map (cons (byte_of_N (leftchar * 64 + v)))
                         (a2b rest 0 0 0)
        end
  end.

Definition is_ascii (c : ascii) : bool := N_of_ascii c <? 128.

(** [base64.b64decode(s)] for a [str] argument: the text is first encoded
    as ASCII (an error when it holds any other character), then decoded
    by [a2b].  [None] stands for the exception the call raises. *)
Definition b64decode (s : str) : option bytes :=
  let input := list_ascii_of_string s in
  if forallb is_ascii input then a2b input 0 0 0 else None.

(** Base64 text in the sense of RFC 4648: groups of four characters of the
    alphabet, the last group possibly ending in one or two [=]. *)
Definition is_alphabet (c : ascii) : bool :=
  match value_of c with Some _ => true | None => false end.

Fixpoint valid_groups (input : list ascii) : bool :=
  match input with
  | [] => true
  | [c1; c2; c3; c4] =>
      is_alphabet c1 && is_alphabet c2
      && ((is_alphabet c3 && (is_alphabet c4 || Ascii.eqb c4 pad))
          || (Ascii.eqb c3 pad && Ascii.eqb c4 pad))
  | c1 :: c2 :: c3 :: c4 :: rest =>
      is_alphabet c1 && is_alphabet c2 && is_alphabet c3 && is_alphabet c4
      && valid_groups rest
  | _ => false
  end.

Definition valid_base64_text (s : str) : bool :=
  valid_groups (list_ascii_of_string s).

End Base64.

(** ** Exceptions *)

(** The messages of the [ValueError]s that can reach the vault. *)
Inductive ValueErrorMsg : Type :=
| KeyMustBe32Bytes (got : nat)
    (* "Key must be 32 bytes, got {len(key)}" *)
| MustContainCiphertextAndNonce
    (* "Encrypted data must contain 'ciphertext' and 'nonce'" *)
| FailedToDecodeEncryptedData
    (* "Failed to decode encrypted data: {e}" *)
| NonceMustBeBetween8And128Bytes.
    (* raised by AESGCM itself *)

(** The prefix a facade method puts in front of the error it wraps. *)
Inductive FailedTo : Type :=
| FailedToSetSecret
| FailedToGetSecret
| FailedToDeleteSecret
| FailedToRotateKey
| FailedToListVersions.

(** The exception objects.  [VaultError op e] is
    [VaultError(f"Failed to ...: {e}")]; [SecretNotFoundError] is a subclass
    of [VaultError] in the source and is kept apart here, as the handlers
    of [get] tell the two apart. *)
Inductive exn : Type :=
| ValueError (msg : ValueErrorMsg)
| InvalidTag
| UnicodeEncodeError
| UnicodeDecodeError
| YAMLError
| MasterKeyNotFoundError
| SecretNotFoundError (key : str)
| VaultError (op : FailedTo) (cause : exn).

Inductive result (A : Type) : Type :=
| Ok (value : A)
| Raise (e : exn).
Arguments Ok {A} value.
Arguments Raise {A} e.

(** The error kinds of the specification's taxonomy, and the kind each
    exception of the code belongs to.  [KeyLengthError] and
    [MalformedBlobError] are both [ValueError]s in the code, told apart by
    their message; [AuthenticationError] is the library's [InvalidTag]. *)
Inductive ErrorKind : Type :=
| KeyLengthError
| MalformedBlobError
| AuthenticationError
| CorruptedVaultError
| MasterKeyNotFound
| SecretNotFound
| GenericVaultError
| OtherError.

Definition kind_of (e : exn) : ErrorKind :=
  match e with
  | ValueError (KeyMustBe32Bytes _) => KeyLengthError
  | ValueError MustContainCiphertextAndNonce => MalformedBlobError
  | ValueError FailedToDecodeEncryptedData => MalformedBlobError
  | ValueError NonceMustBeBetween8And128Bytes => OtherError
  | InvalidTag => AuthenticationError
  | UnicodeEncodeError => OtherError
  | UnicodeDecodeError => OtherError
  | YAMLError => CorruptedVaultError
  | MasterKeyNotFoundError => MasterKeyNotFound
  | SecretNotFoundError _ => SecretNotFound
  | VaultError _ _ => GenericVaultError
  end.

(** ** The environment *)

(** What the package takes from outside: the AES-GCM primitive of the
    [cryptography] package (256-bit key, 96-bit nonce, 128-bit tag, no
    associated data).  [gcm_open] answers [None] when the tag does not
    verify. *)
Class Externals : Type := {
  gcm_seal : bytes -> bytes -> bytes -> bytes;
  gcm_open : bytes -> bytes -> bytes -> option bytes
}.

(** What is assumed of it: opening what was sealed under the same key and
    nonce gives the data back, and sealing appends a 16-byte tag. *)
Class Lawful (ext : Externals) : Prop := {
  gcm_open_seal :
    forall key nonce data,
      len key = 32%nat -> len nonce = 12%nat ->
      gcm_open key nonce (gcm_seal key nonce data) = Some data;
  gcm_seal_length :
    forall key nonce data,
      len key = 32%nat -> len nonce = 12%nat ->
      len (gcm_seal key nonce data) = (len data + 16)%nat
}.

(** The random source: [entropy i] is the [i]-th byte the operating system
    will ever hand out, [consumed] counts the bytes already handed out. *)
Record Rng : Type := {
  entropy : nat -> byte;
  consumed : nat
}.

(** [os.urandom(n)]. *)
Definition urandom (n : nat) (r : Rng) : bytes * Rng :=
  (map (entropy r) (seq (consumed r) n),
   {| entropy := entropy r; consumed := consumed r + n |}).

(** The wall clock: [isoformat i] is what [datetime.utcnow().isoformat()]
    returns at its [i]-th call. *)
Record Clock : Type := {
  isoformat : nat -> str;
  reads : nat
}.

(** [datetime.utcnow().isoformat() + "Z"]. *)
Definition utcnow_z (c : Clock) : str * Clock :=
  ((isoformat c (reads c) ++ "Z")%string,
   {| isoformat := isoformat c; reads := S (reads c) |}).

(** ** crypto.py *)

(** The dictionary [{"ciphertext": ..., "nonce": ...}]; a field is [None]
    when the dictionary has no such key. *)
Record EncryptedData : Type := {
  ciphertext : option str;
  nonce : option str
}.

Module CryptoEngine.

Definition KEY_SIZE : nat := 32.
Definition NONCE_SIZE : nat := 12.

Section WithExternals.
Context {ext : Externals}.

(** [AESGCM(key).encrypt(nonce, data, None)] and
    [AESGCM(key).decrypt(nonce, data, None)] for a 32-byte key: both check
    the size of the nonce, [decrypt] rejects data shorter than a tag. *)
Definition aesgcm_encrypt (key nonce data : bytes) : result bytes :=
  if (len nonce <? 8)%nat || (128 <? len nonce)%nat
  then Raise (ValueError NonceMustBeBetween8And128Bytes)
  else Ok (gcm_seal key nonce data).

Definition aesgcm_decrypt (key nonce data : bytes) : result bytes :=
  if (len nonce <? 8)%nat || (128 <? len nonce)%nat
  then Raise (ValueError NonceMustBeBetween8And128Bytes)
  else if (len data <? 16)%nat then Raise InvalidTag
  else match gcm_open key nonce data with
       | Some plaintext_bytes => Ok plaintext_bytes
       | None => Raise InvalidTag
       end.

(** [generate_key]: [AESGCM.generate_key(bit_length=256)]. *)
Definition generate_key (r : Rng) : bytes * Rng := urandom 32 r.

(** [encrypt]: the length of the key is checked first, the nonce is drawn
    next, and the plaintext is encoded as the argument of the call that
    seals it; a text that does not encode raises there, the nonce spent. *)
Definition encrypt (plaintext : str) (key : bytes) (r : Rng)
  : result EncryptedData * Rng :=
  if negb (len key =? KEY_SIZE)%nat
  then (Raise (ValueError (KeyMustBe32Bytes (len key))), r)
  else
    let (nonce, r') := urandom NONCE_SIZE r in
    match utf8_encode plaintext with
    | None => (Raise UnicodeEncodeError, r')
    | Some data =>
        match aesgcm_encrypt key nonce data with
        | Raise e => (Raise e, r')
        | Ok ciphertext =>
            (Ok {| ciphertext := Some (Base64.b64encode ciphertext);
                   nonce := Some (Base64.b64encode nonce) |}, r')
        end
    end.

Definition decrypt (encrypted_data : EncryptedData) (key : bytes)
  : result str :=
  if negb (len key =? KEY_SIZE)%nat
  then Raise (ValueError (KeyMustBe32Bytes (len key)))
  else
    match ciphertext encrypted_data, nonce encrypted_data with
    | Some ciphertext_text, Some nonce_text =>
        match Base64.b64decode ciphertext_text with
        | None => Raise (ValueError FailedToDecodeEncryptedData)
        | Some ciphertext =>
            match Base64.b64decode nonce_text with
            | None => Raise (ValueError FailedToDecodeEncryptedData)
            | Some nonce =>
                match aesgcm_decrypt key nonce ciphertext with
                | Raise e => Raise e
                | Ok plaintext_bytes =>
                    match utf8_decode plaintext_bytes with
                    | Some plaintext => Ok plaintext
                    | None => Raise UnicodeDecodeError
                    end
                end
            end
        end
    | _, _ => Raise (ValueError MustContainCiphertextAndNonce)
    end.

(** [key_to_string] and [string_to_key]. *)
Definition key_to_string (key : bytes) : str := Base64.b64encode key.
Definition string_to_key (key_string : str) : option bytes :=
  Base64.b64decode key_string.

End WithExternals.
End CryptoEngine.

(** ** Python dictionaries *)

(** A [dict] with [str] keys keeps its items in insertion order; it is an
    association list in which a key occurs once. *)
Section Dict.
Context {V : Type}.

Definition dict : Type := list (str * V).

(** [d.get(key)]. *)
Fixpoint dict_get (key : str) (d : dict) : option V :=
  match d with
  | [] => None
  | (k, v) :: rest => if String.eqb k key then Some v else dict_get key rest
  end.

(** [key in d]. *)
Definition dict_in (key : str) (d : dict) : bool :=
  match dict_get key d with Some _ => true | None => false end.

(** [d[key] = value]: an existing item keeps its place, a new one goes to
    the end. *)
Fixpoint dict_set (key : str) (value : V) (d : dict) : dict :=
  match d with
  | [] => [(key, value)]
  | (k, v) :: rest =>
      if String.eqb k key then (k, value) :: rest
      else (k, v) :: dict_set key value rest
  end.

(** [del d[key]]. *)
Fixpoint dict_del (key : str) (d : dict) : dict :=
  match d with
  | [] => []
  | (k, v) :: rest =>
      if String.eqb k key then rest else (k, v) :: dict_del key rest
  end.

(** [list(d.keys())]. *)
Definition dict_keys (d : dict) : list str := map fst d.

End Dict.
Arguments dict V : clear implicits.

(** ** versioning.py *)

(** The dictionaries of a stored document: one per version, one per key.
    [timestamp] and [metadata] are read with [.get], so they may be absent
    ([None] also stands for a null value). *)
Record VersionDict : Type := {
  dict_version : Z;
  dict_encrypted_value : EncryptedData;
  dict_timestamp : option str;
  dict_metadata : option Metadata
}.

Record KeyDict : Type := {
  dict_versions : list VersionDict;
  dict_current_version : Z
}.

Definition Document : Type := dict KeyDict.

Module SecretVersion.

Record t : Type := {
  version : Z;
  encrypted_value : EncryptedData;
  timestamp : str;
  metadata : Metadata
}.

(** [SecretVersion(version, encrypted_value, timestamp, metadata)]:
    [timestamp or now], [metadata or {}]; the clock is read only when the
    timestamp is missing or empty. *)
Definition init (version : Z) (encrypted_value : EncryptedData)
  (timestamp : option str) (metadata : option Metadata) (c : Clock)
  : t * Clock :=
  let metadata' := match metadata with Some m => m | None => [] end in
  match timestamp with
  | Some (String a s) =>
      ({| version := version; encrypted_value := encrypted_value;
          timestamp := String a s; metadata := metadata' |}, c)
  | _ =>
      let (now, c') := utcnow_z c in
      ({| version := version; encrypted_value := encrypted_value;
          timestamp := now; metadata := metadata' |}, c')
  end.

Definition to_dict (self : t) : VersionDict :=
  {| dict_version := version self;
     dict_encrypted_value := encrypted_value self;
     dict_timestamp := Some (timestamp self);
     dict_metadata := Some (metadata self) |}.

Definition from_dict (data : VersionDict) (c : Clock) : t * Clock :=
  init (dict_version data) (dict_encrypted_value data)
       (dict_timestamp data) (dict_metadata data) c.

(** [version.encrypted_value = new_encrypted]. *)
Definition set_encrypted_value (self : t) (new_encrypted : EncryptedData) : t :=
  {| version := version self; encrypted_value := new_encrypted;
     timestamp := timestamp self; metadata := metadata self |}.

End SecretVersion.

(** A line printed on standard output. *)
Inductive Printed : Type :=
| WarningFailedToRotate (key : str) (version : Z) (e : exn)
    (* "Warning: Failed to rotate key for {key} v{version}: {e}" *)
| WarningFailedToLoad (e : exn).
    (* "Warning: Failed to load secrets: {e}" *)

Module VersionManager.

(** The value [_secrets] holds for one key. *)
Record KeyData : Type := {
  versions : list SecretVersion.t;
  current_version : Z
}.

(** [self._secrets]. *)
Definition t : Type := dict KeyData.

(** [VersionManager()]. *)
Definition init : t := [].

Definition add_version (key : str) (encrypted_value : EncryptedData)
  (metadata : option Metadata) (self : t) (c : Clock) : Z * t * Clock :=
  let data :=
    match dict_get key self with
    | Some data => data
    | None => {| versions := []; current_version := 0 |}
    end in
  let next_version := (current_version data + 1)%Z in
  let (version, c') :=
    SecretVersion.init next_version encrypted_value None metadata c in
  (next_version,
   dict_set key {| versions := versions data ++ [version];
                   current_version := next_version |} self,
   c').

Definition get_version (key : str) (version : option Z) (self : t)
  : option SecretVersion.t :=
  match dict_get key self with
  | None => None
  | Some data =>
      match versions data with
      | [] => None
      | first :: _ =>
          match version with
          | None => Some (last (versions data) first)
          | Some n =>
              find (fun v => (SecretVersion.version v =? n)%Z) (versions data)
          end
      end
  end.

(** One item of [list_versions]: a version without its encrypted value. *)
Record VersionInfo : Type := {
  info_version : Z;
  info_timestamp : str;
  info_metadata : Metadata
}.

Definition list_versions (key : str) (self : t) : list VersionInfo :=
  match dict_get key self with
  | None => []
  | Some data =>
      map (fun v => {| info_version := SecretVersion.version v;
                       info_timestamp := SecretVersion.timestamp v;
                       info_metadata := SecretVersion.metadata v |})
          (versions data)
  end.

Definition delete_key (key : str) (self : t) : bool * t :=
  if dict_in key self then (true, dict_del key self) else (false, self).

Definition delete_version (key : str) (version : Z) (self : t) : bool * t :=
  match dict_get key self with
  | None => (false, self)
  | Some data =>
      let kept :=
        filter (fun v => negb (SecretVersion.version v =? version)%Z)
               (versions data) in
      ((List.length kept <? List.length (versions data))%nat,
       dict_set key {| versions := kept;
                       current_version := current_version data |} self)
  end.

Definition get_all_keys (self : t) : list str := dict_keys self.

Section WithExternals.
Context {ext : Externals}.

(** The body of the inner loop of [rotate_key]: any exception is caught,
    reported on standard output, and the loop goes on. *)
Definition rotate_version (key : str) (old_key new_key : bytes)
  (version : SecretVersion.t) (r : Rng) (out : list Printed)
  : SecretVersion.t * Rng * list Printed :=
  match CryptoEngine.decrypt (SecretVersion.encrypted_value version) old_key with
  | Raise e =>
      (version, r,
       out ++ [WarningFailedToRotate key (SecretVersion.version version) e])
  | Ok plaintext =>
      match CryptoEngine.encrypt plaintext new_key r with
      | (Raise e, r') =>
          (version, r',
           out ++ [WarningFailedToRotate key (SecretVersion.version version) e])
      | (Ok new_encrypted, r') =>
          (SecretVersion.set_encrypted_value version new_encrypted, r', out)
      end
  end.

Fixpoint rotate_versions (key : str) (old_key new_key : bytes)
  (vs : list SecretVersion.t) (r : Rng) (out : list Printed)
  : list SecretVersion.t * Rng * list Printed :=
  match vs with
  | [] => ([], r, out)
  | version :: rest =>
      let '(version', r1, out1) :=
        rotate_version key old_key new_key version r out in
      let '(rest', r2, out2) :=
        rotate_versions key old_key new_key rest r1 out1 in
      (version' :: rest', r2, out2)
  end.

(** [rotate_key]: for every key, for every version, in order. *)
Fixpoint rotate_key (old_key new_key : bytes) (self : t) (r : Rng)
  (out : list Printed) : t * Rng * list Printed :=
  match self with
  | [] => ([], r, out)
  | (key, data) :: rest =>
      let '(vs', r1, out1) :=
        rotate_versions key old_key new_key (versions data) r out in
      let '(rest', r2, out2) := rotate_key old_key new_key rest r1 out1 in
      ((key, {| versions := vs'; current_version := current_version data |})
         :: rest', r2, out2)
  end.

End WithExternals.

Definition to_dict (self : t) : Document :=
  map (fun item : str * KeyData =>
         let (key, data) := item in
         (key, {| dict_versions := map SecretVersion.to_dict (versions data);
                  dict_current_version := current_version data |}))
      self.

(** [[SecretVersion.from_dict(v) for v in key_data["versions"]]]. *)
Fixpoint versions_from_dict (items : list VersionDict) (c : Clock)
  : list SecretVersion.t * Clock :=
  match items with
  | [] => ([], c)
  | v :: rest =>
      let (version, c1) := SecretVersion.from_dict v c in
      let (rest', c2) := versions_from_dict rest c1 in
      (version :: rest', c2)
  end.

(** The loop of [from_dict], started on [self._secrets = {}]. *)
Fixpoint from_dict_items (items : Document) (secrets : t) (c : Clock)
  : t * Clock :=
  match items with
  | [] => (secrets, c)
  | (key, key_data) :: rest =>
      let (vs, c1) := versions_from_dict (dict_versions key_data) c in
      from_dict_items rest
        (dict_set key {| versions := vs;
                         current_version := dict_current_version key_data |}
                  secrets)
        c1
  end.

Definition from_dict (data : Document) (c : Clock) : t * Clock :=
  from_dict_items data [] c.

End VersionManager.

(** ** storage.py *)

Module StorageBackend.

(** What is found at a path: nothing, a YAML document, or bytes that do not
    parse. *)
Inductive File : Type :=
| Missing
| Yaml (data : Document)
| Unparseable.

(** The secrets file and its [.backup] sibling.  Two things are taken from
    the environment and are not part of the model: the file system is
    reliable (no call of the operating system fails, so the [IOError] of
    [load] and [save] is never raised), and the text [yaml.safe_dump]
    writes for a document is text [yaml.safe_load] reads as that document
    (a file is held as the document it parses to).  What is stated below
    about the contents of the file is stated under these two assumptions;
    what a reader of the file gets back is stated only for a file that is
    assumed to load as a given document. *)
Record t : Type := {
  filepath : File;
  backup_path : File
}.

Definition exists_ (self : t) : bool :=
  match filepath self with Missing => false | _ => true end.

(** [load]: a missing file is an empty document. *)
Definition load (self : t) : result Document :=
  match filepath self with
  | Missing => Ok []
  | Yaml data => Ok data
  | Unparseable => Raise YAMLError
  end.

(** [save]: the previous contents become the backup, the new document
    replaces the file. *)
Definition save (data : Document) (self : t) : t :=
  {| filepath := Yaml data;
     backup_path := if exists_ self then filepath self else backup_path self |}.


(** [delete]: [True] iff there was a file to remove. *)
Definition delete (self : t) : bool * t :=
  if exists_ self
  then (true, {| filepath := Missing; backup_path := backup_path self |})
  else (false, self).

(** [get_backup_path]: the backup, when there is one. *)
Definition get_backup_path (self : t) : option File :=
  match backup_path self with
  | Missing => None
  | b => Some b
  end.

End StorageBackend.

(** ** audit.py *)

Module AuditLogger.

Inductive Operation : Type :=
| GET | SET | DELETE | ROTATE | INIT | LIST_VERSIONS.

(** The text stored in the [error] field: a fixed message or [str(e)]. *)
Inductive ErrorText : Type :=
| SecretNotFoundText
| StrOf (e : exn).

Record LogEntry : Type := {
  log_timestamp : str;
  log_operation : Operation;
  log_key : option str;
  log_success : bool;
  log_error : option ErrorText;
  log_metadata : list (str * Z)
}.

(** [self._memory_logs]; the optional log file receives the same entries
    and a failure to write it is swallowed. *)
Definition t : Type := list LogEntry.

Definition log (operation : Operation) (key : option str) (success : bool)
  (error : option ErrorText) (metadata : list (str * Z)) (self : t) (c : Clock)
  : t * Clock :=
  let (now, c') := utcnow_z c in
  (self ++ [{| log_timestamp := now; log_operation := operation;
               log_key := key; log_success := success; log_error := error;
               log_metadata := metadata |}], c').

Definition operation_eqb (a b : Operation) : bool :=
  match a, b with
  | GET, GET | SET, SET | DELETE, DELETE | ROTATE, ROTATE | INIT, INIT
  | LIST_VERSIONS, LIST_VERSIONS => true
  | _, _ => false
  end.

(** [logs.sort(key=lambda x: x["timestamp"], reverse=True)]: a stable sort,
    latest timestamp first; entries with the same timestamp keep the order
    they had. *)
Fixpoint insert_desc (x : LogEntry) (sorted : list LogEntry) : list LogEntry :=
  match sorted with
  | [] => [x]
  | y :: rest =>
      if String.ltb (log_timestamp x) (log_timestamp y)
      then y :: insert_desc x rest
      else x :: sorted
  end.

Definition sort_desc (logs : list LogEntry) : list LogEntry :=
  fold_right insert_desc [] logs.

(** [logs[:limit]]: a negative limit counts from the end. *)
Definition slice_to (limit : Z) (logs : list LogEntry) : list LogEntry :=
  if (0 <=? limit)%Z then firstn (Z.to_nat limit) logs
  else firstn (Z.to_nat (Z.of_nat (List.length logs) + limit)) logs.

Definition get_logs (key : option str) (operation : option Operation)
  (limit : option Z) (self : t) : list LogEntry :=
  let logs := self in
  let logs :=
    match key with
    | Some k =>
        filter (fun log => match log_key log with
                           | Some k' => String.eqb k' k
                           | None => false
                           end) logs
    | None => logs
    end in
  let logs :=
    match operation with
    | Some op => filter (fun log => operation_eqb (log_operation log) op) logs
    | None => logs
    end in
  let logs := sort_desc logs in
  match limit with
  | Some n => slice_to n logs
  | None => logs
  end.

(** [clear_logs]. *)
Definition clear_logs (self : t) : t := [].

End AuditLogger.

(** ** vault.py *)

(** A [MobileSecretsVault] object together with the part of the world its
    methods touch. *)
Record Vault : Type := {
  auto_save : bool;
  master_key : bytes;
  storage : StorageBackend.t;
  version_manager : VersionManager.t;
  audit_logger : AuditLogger.t;
  rng : Rng;
  clock : Clock;
  stdout : list Printed
}.

(** Computations on a vault: they run to a value or to an exception, and
    leave a vault behind in both cases. *)
Definition M (A : Type) : Type := Vault -> result A * Vault.

Definition ret {A} (a : A) : M A := fun self => (Ok a, self).

Definition bind {A B} (m : M A) (k : A -> M B) : M B :=
  fun self =>
    match m self with
    | (Ok a, self') => k a self'
    | (Raise e, self') => (Raise e, self')
    end.

Definition raise {A} (e : exn) : M A := fun self => (Raise e, self).

(** [try: body except Exception as e: handler(e)]. *)
Definition try_except {A} (body : M A) (handler : exn -> M A) : M A :=
  fun self =>
    match body self with
    | (Ok a, self') => (Ok a, self')
    | (Raise e, self') => handler e self'
    end.

(** Reading a field of [self]. *)
Definition attr {A} (field : Vault -> A) : M A := fun self => (Ok (field self), self).

Declare Scope vault_scope.
Delimit Scope vault_scope with vault.
Notation "x <- m ;; k" := (bind m (fun x => k))
  (at level 61, m at next level, right associativity) : vault_scope.
Notation "m ;; k" := (bind m (fun _ => k))
  (at level 61, right associativity) : vault_scope.

Module MobileSecretsVault.

Local Open Scope vault_scope.

Definition set_version_manager (vm : VersionManager.t) (self : Vault) : Vault :=
  {| auto_save := auto_save self; master_key := master_key self;
     storage := storage self; version_manager := vm;
     audit_logger := audit_logger self; rng := rng self;
     clock := clock self; stdout := stdout self |}.

Definition set_master_key (key : bytes) (self : Vault) : Vault :=
  {| auto_save := auto_save self; master_key := key;
     storage := storage self; version_manager := version_manager self;
     audit_logger := audit_logger self; rng := rng self;
     clock := clock self; stdout := stdout self |}.

Definition set_storage (st : StorageBackend.t) (self : Vault) : Vault :=
  {| auto_save := auto_save self; master_key := master_key self;
     storage := st; version_manager := version_manager self;
     audit_logger := audit_logger self; rng := rng self;
     clock := clock self; stdout := stdout self |}.

Definition set_audit_logger (a : AuditLogger.t) (self : Vault) : Vault :=
  {| auto_save := auto_save self; master_key := master_key self;
     storage := storage self; version_manager := version_manager self;
     audit_logger := a; rng := rng self;
     clock := clock self; stdout := stdout self |}.

Definition set_rng (r : Rng) (self : Vault) : Vault :=
  {| auto_save := auto_save self; master_key := master_key self;
     storage := storage self; version_manager := version_manager self;
     audit_logger := audit_logger self; rng := r;
     clock := clock self; stdout := stdout self |}.

Definition set_clock (c : Clock) (self : Vault) : Vault :=
  {| auto_save := auto_save self; master_key := master_key self;
     storage := storage self; version_manager := version_manager self;
     audit_logger := audit_logger self; rng := rng self;
     clock := c; stdout := stdout self |}.

Definition set_stdout (out : list Printed) (self : Vault) : Vault :=
  {| auto_save := auto_save self; master_key := master_key self;
     storage := storage self; version_manager := version_manager self;
     audit_logger := audit_logger self; rng := rng self;
     clock := clock self; stdout := out |}.

(** [self.audit_logger.log(...)]. *)
Definition audit_log (operation : AuditLogger.Operation) (key : option str)
  (success : bool) (error : option AuditLogger.ErrorText)
  (metadata : list (str * Z)) : M unit :=
  fun self =>
    let (logs, c) :=
      AuditLogger.log operation key success error metadata
                      (audit_logger self) (clock self) in
    (Ok tt, set_clock c (set_audit_logger logs self)).

(** [save]: persist [version_manager.to_dict()].  The write is the one of
    [StorageBackend.save], on the reliable file system assumed there. *)
Definition save : M unit :=
  fun self =>
    (Ok tt,
     set_storage
       (StorageBackend.save (VersionManager.to_dict (version_manager self))
                            (storage self))
       self).

Definition list_keys : M (list str) :=
  fun self => (Ok (VersionManager.get_all_keys (version_manager self)), self).

Definition delete (key : str) : M bool :=
  try_except
    (deleted <- (fun self =>
                   let (deleted, vm) :=
                     VersionManager.delete_key key (version_manager self) in
                   (Ok deleted, set_version_manager vm self)) ;;
     auto <- attr auto_save ;;
     (if deleted && auto then save else ret tt) ;;
     audit_log AuditLogger.DELETE (Some key) deleted None [] ;;
     ret deleted)
    (fun e =>
       audit_log AuditLogger.DELETE (Some key) false
                 (Some (AuditLogger.StrOf e)) [] ;;
       raise (VaultError FailedToDeleteSecret e)).

Definition list_versions (key : str) : M (list VersionManager.VersionInfo) :=
  try_except
    (vm <- attr version_manager ;;
     let versions := VersionManager.list_versions key vm in
     audit_log AuditLogger.LIST_VERSIONS (Some key) true None
               [("version_count"%string, Z.of_nat (List.length versions))] ;;
     ret versions)
    (fun e =>
       audit_log AuditLogger.LIST_VERSIONS (Some key) false
                 (Some (AuditLogger.StrOf e)) [] ;;
       raise (VaultError FailedToListVersions e)).

Section WithExternals.
Context {ext : Externals}.

(** [self.crypto.encrypt(value, self.master_key)]. *)
Definition crypto_encrypt (value : str) : M EncryptedData :=
  fun self =>
    let (res, r) := CryptoEngine.encrypt value (master_key self) (rng self) in
    (res, set_rng r self).

(** [self.crypto.decrypt(encrypted, self.master_key)]. *)
Definition crypto_decrypt (encrypted : EncryptedData) : M str :=
  fun self => (CryptoEngine.decrypt encrypted (master_key self), self).

(** [self.version_manager.add_version(key, encrypted, metadata)]. *)
Definition vm_add_version (key : str) (encrypted : EncryptedData)
  (metadata : option Metadata) : M Z :=
  fun self =>
    let '(version, vm, c) :=
      VersionManager.add_version key encrypted metadata
                                 (version_manager self) (clock self) in
    (Ok version, set_clock c (set_version_manager vm self)).

Definition set (key : str) (value : str) (metadata : option Metadata) : M Z :=
  try_except
    (encrypted <- crypto_encrypt value ;;
     version <- vm_add_version key encrypted metadata ;;
     auto <- attr auto_save ;;
     (if auto then save else ret tt) ;;
     audit_log AuditLogger.SET (Some key) true None
               [("version"%string, version)] ;;
     ret version)
    (fun e =>
       audit_log AuditLogger.SET (Some key) false
                 (Some (AuditLogger.StrOf e)) [] ;;
       raise (VaultError FailedToSetSecret e)).

Definition get (key : str) (version : option Z) : M str :=
  try_except
    (vm <- attr version_manager ;;
     match VersionManager.get_version key version vm with
     | None => raise (SecretNotFoundError key)
     | Some secret_version =>
         plaintext <-
           crypto_decrypt (SecretVersion.encrypted_value secret_version) ;;
         audit_log AuditLogger.GET (Some key) true None
                   [("version"%string, SecretVersion.version secret_version)] ;;
         ret plaintext
     end)
    (fun e =>
       match e with
       | SecretNotFoundError _ =>
           audit_log AuditLogger.GET (Some key) false
                     (Some AuditLogger.SecretNotFoundText) [] ;;
           raise e
       | _ =>
           audit_log AuditLogger.GET (Some key) false
                     (Some (AuditLogger.StrOf e)) [] ;;
           raise (VaultError FailedToGetSecret e)
       end).

(** [self.version_manager.rotate_key(old_key, new_key, self.crypto)]. *)
Definition vm_rotate_key (old_key new_key : bytes) : M unit :=
  fun self =>
    let '(vm, r, out) :=
      VersionManager.rotate_key old_key new_key (version_manager self)
                                (rng self) (stdout self) in
    (Ok tt, set_stdout out (set_rng r (set_version_manager vm self))).

(** [rotate]: the value returned is [new_key if new_key else None]. *)
Definition rotate (new_key : option bytes) : M (option bytes) :=
  try_except
    (new_key <-
       match new_key with
       | Some k => ret k
       | None =>
           fun self =>
             let (k, r) := CryptoEngine.generate_key (rng self) in
             (Ok k, set_rng r self)
       end ;;
     old_key <- attr master_key ;;
     vm_rotate_key old_key new_key ;;
     (fun self => (Ok tt, set_master_key new_key self)) ;;
     save ;;
     keys <- list_keys ;;
     audit_log AuditLogger.ROTATE None true None
               [("secret_count"%string, Z.of_nat (List.length keys))] ;;
     ret (match new_key with [] => None | _ => Some new_key end))
    (fun e =>
       audit_log AuditLogger.ROTATE None false
                 (Some (AuditLogger.StrOf e)) [] ;;
       raise (VaultError FailedToRotateKey e)).

End WithExternals.

(** A key file on disk. *)
Inductive KeyFile : Type :=
| NoKeyFile
| KeyFileContent (content : bytes)
| KeyFileUnreadable.

(** [_load_master_key]: direct parameter, then the environment variable
    [VAULT_MASTER_KEY], then the key file given, then
    [~/.vault/master.key]. *)
Definition _load_master_key (direct_key : option bytes)
  (env_key : option str) (key_file : option KeyFile)
  (default_key_file : KeyFile) : result bytes :=
  match direct_key with
  | Some key => Ok key
  | None =>
      let from_files :=
        let from_default :=
          match default_key_file with
          | KeyFileContent content => Ok content
          | _ => Raise MasterKeyNotFoundError
          end in
        match key_file with
        | Some (KeyFileContent content) => Ok content
        | Some KeyFileUnreadable => Raise MasterKeyNotFoundError
        | _ => from_default
        end in
      match env_key with
      | Some (String a s) =>
          match CryptoEngine.string_to_key (String a s) with
          | Some key => Ok key
          | None => from_files
          end
      | _ => from_files
      end
  end.

(** [_load_secrets]: a document that does not load leaves the vault
    empty. *)
Definition _load_secrets : M unit :=
  fun self =>
    match StorageBackend.load (storage self) with
    | Ok [] => (Ok tt, self)
    | Ok data =>
        let (vm, c) := VersionManager.from_dict data (clock self) in
        (Ok tt, set_clock c (set_version_manager vm self))
    | Raise e =>
        (Ok tt, set_stdout (stdout self ++ [WarningFailedToLoad e]) self)
    end.

(** [MobileSecretsVault(master_key, master_key_file, secrets_filepath,
    auto_save=auto_save)] on a host whose environment variable, key files,
    secrets file, random source and clock are given. *)
Definition init (direct_key : option bytes) (env_key : option str)
  (key_file : option KeyFile) (default_key_file : KeyFile)
  (secrets_file : StorageBackend.t) (auto : bool) (r : Rng) (c : Clock)
  : result Vault :=
  match _load_master_key direct_key env_key key_file default_key_file with
  | Raise e => Raise e
  | Ok key =>
      let self :=
        {| auto_save := auto; master_key := key; storage := secrets_file;
           version_manager := VersionManager.init; audit_logger := [];
           rng := r; clock := c; stdout := [] |} in
      let (_, self') :=
        (_load_secrets ;;
         audit_log AuditLogger.INIT None true None []) self in
      Ok self'
  end.

(** [get_audit_log(key, limit)]; the caller's default for [limit] is 100. *)
Definition get_audit_log (key : option str) (limit : option Z)
  : M (list AuditLogger.LogEntry) :=
  fun self => (Ok (AuditLogger.get_logs key None limit (audit_logger self)), self).

End MobileSecretsVault.

(** ** Notions used in the statements *)

(** The twelve bytes [os.urandom(12)] returns when [pos] bytes have been
    consumed. *)
Definition draw (r : Rng) (pos : nat) : bytes :=
  map (entropy r) (seq pos CryptoEngine.NONCE_SIZE).

(** A text [str.encode("utf-8")] accepts. *)
Definition encodable (s : str) : bool :=
  match utf8_encode s with Some _ => true | None => false end.

(** The dictionary [encrypt] builds from a plaintext that encodes, a key
    and a nonce. *)
Definition sealed {ext : Externals} (key nonce : bytes) (plaintext : str)
  : EncryptedData :=
  {| ciphertext := Some (Base64.b64encode
                           (gcm_seal key nonce
                              (list_byte_of_string plaintext)));
     nonce := Some (Base64.b64encode nonce) |}.

(** Every stored version with its key, in the order [rotate_key] visits
    them. *)
Definition all_versions (s : VersionManager.t)
  : list (str * SecretVersion.t) :=
  flat_map (fun item : str * VersionManager.KeyData =>
              map (pair (fst item)) (VersionManager.versions (snd item)))
           s.

Definition decrypts_under {ext : Externals} (key : bytes)
  (v : SecretVersion.t) : bool :=
  match CryptoEngine.decrypt (SecretVersion.encrypted_value v) key with
  | Ok _ => true
  | Raise _ => false
  end.

Definition all_decrypt {ext : Externals} (key : bytes)
  (s : VersionManager.t) : bool :=
  forallb (fun kv => decrypts_under key (snd kv)) (all_versions s).

(** What [rotate_key] does to one version: number, timestamp and metadata
    stay; the blob is replaced by a newly sealed one when the old blob
    decrypts under the old key and the new key has 32 bytes, and is left
    as it is otherwise. *)
Definition rotated_version {ext : Externals} (old_key new_key : bytes)
  (v v' : SecretVersion.t) : Prop :=
  SecretVersion.version v' = SecretVersion.version v
  /\ SecretVersion.timestamp v' = SecretVersion.timestamp v
  /\ SecretVersion.metadata v' = SecretVersion.metadata v
  /\ match CryptoEngine.decrypt (SecretVersion.encrypted_value v) old_key with
     | Ok plaintext =>
         if (len new_key =? 32)%nat
         then exists fresh_nonce,
                len fresh_nonce = 12%nat
                /\ SecretVersion.encrypted_value v'
                   = sealed new_key fresh_nonce plaintext
         else SecretVersion.encrypted_value v'
              = SecretVersion.encrypted_value v
     | Raise _ =>
         SecretVersion.encrypted_value v' = SecretVersion.encrypted_value v
     end.

Definition rotated_entry {ext : Externals} (old_key new_key : bytes)
  (item item' : str * VersionManager.KeyData) : Prop :=
  fst item' = fst item
  /\ VersionManager.current_version (snd item')
     = VersionManager.current_version (snd item)
  /\ Forall2 (rotated_version old_key new_key)
             (VersionManager.versions (snd item))
             (VersionManager.versions (snd item')).

(** The [current_version] recorded for a key, if the key has an entry. *)
Definition current_version_of (key : str) (s : VersionManager.t) : option Z :=
  option_map VersionManager.current_version (dict_get key s).

(** A document as the data model describes it: a key occurs once, and every
    version carries a (non-empty) timestamp and a metadata mapping. *)
Definition valid_version_dict (v : VersionDict) : bool :=
  match dict_timestamp v, dict_metadata v with
  | Some (String _ _), Some _ => true
  | _, _ => false
  end.

Fixpoint unique_keys (keys : list str) : bool :=
  match keys with
  | [] => true
  | k :: rest => negb (existsb (String.eqb k) rest) && unique_keys rest
  end.

Definition valid_document (d : Document) : bool :=
  unique_keys (dict_keys d)
  && forallb (fun item : str * KeyDict =>
                forallb valid_version_dict (dict_versions (snd item)))
             d.

(** The exceptions [decrypt] can raise. *)
Definition crypto_exn (e : exn) : Prop :=
  match e with
  | ValueError _ | InvalidTag | UnicodeDecodeError => True
  | UnicodeEncodeError | YAMLError | MasterKeyNotFoundError
  | SecretNotFoundError _ | VaultError _ _ => False
  end.

(** Looking a version up before and after a rotation. *)
Definition related_option {ext : Externals} (old_key new_key : bytes)
  (a b : option SecretVersion.t) : Prop :=
  match a, b with
  | None, None => True
  | Some v, Some v' => rotated_version old_key new_key v v'
  | _, _ => False
  end.

(** Histories of a [VersionManager]: the calls made on it, and the version
    numbers [add_version] has handed out, key by key. *)
Module History.

Inductive Op : Type :=
| Add (key : str) (encrypted_value : EncryptedData) (metadata : option Metadata)
| DeleteVersion (key : str) (version : Z)
| DeleteKey (key : str).

Record State : Type := {
  manager : VersionManager.t;
  time : Clock;
  assigned : list (str * Z)
}.

Definition start (c : Clock) : State :=
  {| manager := VersionManager.init; time := c; assigned := [] |}.

Definition step (st : State) (op : Op) : State :=
  match op with
  | Add key encrypted_value metadata =>
      let '(n, vm, c) :=
        VersionManager.add_version key encrypted_value metadata
                                   (manager st) (time st) in
      {| manager := vm; time := c; assigned := (key, n) :: assigned st |}
  | DeleteVersion key version =>
      {| manager := snd (VersionManager.delete_version key version (manager st));
         time := time st; assigned := assigned st |}
  | DeleteKey key =>
      {| manager := snd (VersionManager.delete_key key (manager st));
         time := time st; assigned := assigned st |}
  end.

Definition run (ops : list Op) (st : State) : State := fold_left step ops st.


End History.


(** ** The shape of a store built through the interface *)

(** Version numbers that grow strictly, all above [low]. *)
Fixpoint ascending_from (low : Z) (numbers : list Z) : bool :=
  match numbers with
  | [] => true
  | n :: rest => (low <? n)%Z && ascending_from n rest
  end.

Definition stamped (v : SecretVersion.t) : bool :=
  match SecretVersion.timestamp v with
  | String _ _ => true
  | EmptyString => false
  end.

(** One key's entry: numbers start above 0, grow strictly and stay at or
    below [current_version]; every version has a timestamp. *)
Definition entry_ok (data : VersionManager.KeyData) : bool :=
  (0 <=? VersionManager.current_version data)%Z
  && ascending_from 0 (map SecretVersion.version (VersionManager.versions data))
  && forallb (fun v => (SecretVersion.version v
                        <=? VersionManager.current_version data)%Z)
             (VersionManager.versions data)
  && forallb stamped (VersionManager.versions data).

Definition well_formed (s : VersionManager.t) : bool :=
  unique_keys (dict_keys s)
  && forallb (fun item : str * VersionManager.KeyData => entry_ok (snd item)) s.



(** A call left exactly one more entry in the audit log, with this
    operation, key and outcome. *)
Definition logged (self self' : Vault) (operation : AuditLogger.Operation)
  (key : option str) (success : bool) : Prop :=
  exists entry,
    audit_logger self' = audit_logger self ++ [entry]
    /\ AuditLogger.log_operation entry = operation
    /\ AuditLogger.log_key entry = key
    /\ AuditLogger.log_success entry = success.

(** The entries that [get_logs(key, operation)] keeps. *)
Definition selected (key : option str)
  (operation : option AuditLogger.Operation) (entry : AuditLogger.LogEntry)
  : bool :=
  match key with
  | None => true
  | Some k =>
      match AuditLogger.log_key entry with
      | Some k' => String.eqb k' k
      | None => false
      end
  end
  && match operation with
     | None => true
     | Some op => AuditLogger.operation_eqb (AuditLogger.log_operation entry) op
     end.

Definition is_ok {A : Type} (r : result A) : bool :=
  match r with Ok _ => true | Raise _ => false end.



(** Newest first: an entry is never followed by a later one. *)
Definition not_earlier (a b : AuditLogger.LogEntry) : Prop :=
  String.ltb (AuditLogger.log_timestamp a) (AuditLogger.log_timestamp b)
    = false.

(** ** A reference instance of the environment *)

(** A small cipher with the shape of an AEAD: the data is masked byte by
    byte with a pad drawn from key and nonce, and a 16-byte tag computed
    from key, nonce and masked data is appended.  It is lawful (see
    [ref_lawful]) and is used to run the vault on concrete inputs. *)
Module Ref.

Definition byte_add (a b : byte) : byte :=
  byte_of_N (Byte.to_N a + Byte.to_N b).

Definition byte_sub (a b : byte) : byte :=
  byte_of_N (Byte.to_N a + 256 - Byte.to_N b).

Definition pad_byte (key nonce : bytes) (i : nat) : byte :=
  byte_add (nth (i mod 32) key x00) (nth (i mod 12) nonce x00).

Fixpoint mask (op : byte -> byte -> byte) (key nonce : bytes) (i : nat)
  (data : bytes) : bytes :=
  match data with
  | [] => []
  | d :: rest => op d (pad_byte key nonce i) :: mask op key nonce (S i) rest
  end.

Definition checksum (data : bytes) : byte := fold_left byte_add data x01.

Definition tag (key nonce masked : bytes) : bytes :=
  repeat (checksum (key ++ nonce ++ masked)) 16.

Fixpoint bytes_eqb (a b : bytes) : bool :=
  match a, b with
  | [], [] => true
  | x :: a', y :: b' => Byte.eqb x y && bytes_eqb a' b'
  | _, _ => false
  end.

Definition seal (key nonce data : bytes) : bytes :=
  let masked := mask byte_add key nonce 0 data in
  masked ++ tag key nonce masked.

Definition open (key nonce data : bytes) : option bytes :=
  let n := (len data - 16)%nat in
  let masked := firstn n data in
  if (16 <=? len data)%nat && bytes_eqb (skipn n data) (tag key nonce masked)
  then Some (mask byte_sub key nonce 0 masked)
  else None.

Definition externals : Externals :=
  {| gcm_seal := seal; gcm_open := open |}.

(** Fixtures: two master keys, a random source and a clock. *)
Definition key_a : bytes := repeat "a"%byte 32.
Definition key_b : bytes := repeat "b"%byte 32.

(** The text ['\ud800']: one surrogate code point on its own. *)
Definition lone_surrogate : str := string_of_list_byte [xed; xa0; x80].

Definition rng0 : Rng :=
  {| entropy := fun i => byte_of_N (N.of_nat (7 * i + 3)); consumed := 0 |}.

Definition clock0 : Clock :=
  {| isoformat := fun _ => "2025-01-01T12:34:56.789000"%string; reads := 0 |}.

(** A blob as the tests of the version manager write them. *)
Definition blob (c n : str) : EncryptedData :=
  {| ciphertext := Some c; nonce := Some n |}.

(** A stored document: key [P] has lost its version 2. *)
Definition document0 : Document :=
  [("P"%string,
    {| dict_versions :=
         [{| dict_version := 1; dict_encrypted_value := blob "v1" "1";
             dict_timestamp := Some "2025-01-01T00:00:00Z"%string;
             dict_metadata := Some [] |};
          {| dict_version := 3; dict_encrypted_value := blob "v3" "3";
             dict_timestamp := Some "2025-01-03T00:00:00Z"%string;
             dict_metadata :=
               Some [("source"%string, JStr "test");
                     ("tags"%string, JList [JInt 1; JNull])] |}];
       dict_current_version := 3 |});
   ("Q"%string,
    {| dict_versions :=
         [{| dict_version := 1; dict_encrypted_value := blob "w1" "4";
             dict_timestamp := Some "2025-01-04T00:00:00Z"%string;
             dict_metadata := Some [("n"%string, JBool true)] |}];
       dict_current_version := 1 |})].

Definition no_file : StorageBackend.t :=
  {| StorageBackend.filepath := StorageBackend.Missing;
     StorageBackend.backup_path := StorageBackend.Missing |}.

(** The vault [MobileSecretsVault(master_key=key)] leaves on a host
    without a secrets file (see [init_vault0]). *)
Definition vault0 (key : bytes) : Vault :=
  {| auto_save := true; master_key := key; storage := no_file;
     version_manager := []; rng := rng0;
     audit_logger :=
       [{| AuditLogger.log_timestamp := "2025-01-01T12:34:56.789000Z";
           AuditLogger.log_operation := AuditLogger.INIT;
           AuditLogger.log_key := None;
           AuditLogger.log_success := true;
           AuditLogger.log_error := None;
           AuditLogger.log_metadata := [] |}];
     clock := {| isoformat := isoformat clock0; reads := 1 |};
     stdout := [] |}.

(** The vault a computation leaves behind. *)
Definition after {A : Type} (m : M A) (self : Vault) : Vault := snd (m self).

(** [vault0 key_a] after [set("T", "t")]. *)
Definition vault_t : Vault :=
  after (MobileSecretsVault.set (ext := externals) "T" "t" None) (vault0 key_a).


End Ref.

(** * Proofs *)

(** ** Bytes and base64 *)

Lemma to_N_lt (b : byte) : (Byte.to_N b < 256)%N.
Proof. pose proof (Byte.to_N_bounded b). lia. Qed.

Lemma byte_of_to_N (b : byte) : byte_of_N (Byte.to_N b) = b.
Proof.
  unfold byte_of_N. rewrite N.mod_small by apply to_N_lt.
  now rewrite Byte.of_to_N.
Qed.

Lemma to_N_byte_of_N (n : N) : Byte.to_N (byte_of_N n) = (n mod 256)%N.
Proof.
  unfold byte_of_N. destruct (Byte.of_N (n mod 256)) eqn:E.
  - now apply Byte.to_of_N.
  - pose proof (Byte.to_of_N_option_map (n mod 256)) as H. rewrite E in H.
    destruct (N.leb_spec (n mod 256) 255); [discriminate | lia].
Qed.

Lemma byte_of_N_eq (a : byte) (n : N) : n = Byte.to_N a -> byte_of_N n = a.
Proof. intros ->. apply byte_of_to_N. Qed.

Lemma byte_of_N_mod_eq (a : byte) (n : N) :
  (n mod 256)%N = Byte.to_N a -> byte_of_N n = a.
Proof.
  intros H. unfold byte_of_N. rewrite H. now rewrite Byte.of_to_N.
Qed.

Module B64.
Import Base64.
Open Scope N_scope.

Lemma value_of_char_of_nat (k : nat) :
  (k < 64)%nat ->
  value_of (char_of (N.of_nat k)) = Some (N.of_nat k)
  /\ Ascii.eqb (char_of (N.of_nat k)) pad = false
  /\ is_ascii (char_of (N.of_nat k)) = true.
Proof.
  intros H. do 64 (destruct k as [|k]; [now vm_compute|]). lia.
Qed.

Lemma char_of_spec (n : N) :
  n < 64 ->
  value_of (char_of n) = Some n
  /\ Ascii.eqb (char_of n) pad = false
  /\ is_ascii (char_of n) = true.
Proof.
  intros H. rewrite <- (N2Nat.id n). apply value_of_char_of_nat. lia.
Qed.

Lemma a2b_data (n : N) (rest : list ascii) (q l p : N) :
  n < 64 ->
  a2b (char_of n :: rest) q l p =
    if q =? 0 then a2b rest 1 n 0
    else if q =? 1 then
      option_map (cons (byte_of_N (l * 4 + n / 16))) (a2b rest 2 (n mod 16) 0)
    else if q =? 2 then
      option_map (cons (byte_of_N (l * 16 + n / 4))) (a2b rest 3 (n mod 4) 0)
    else option_map (cons (byte_of_N (l * 64 + n))) (a2b rest 0 0 0).
Proof.
  intros H. destruct (char_of_spec n H) as (Hv & Hp & _).
  cbn [a2b]. now rewrite Hp, Hv.
Qed.

Lemma a2b_b2a (data : bytes) : a2b (b2a data) 0 0 0 = Some data.
Proof.
  revert data.
  fix IH 1. intros [|a [|b [|c rest]]].
  - reflexivity.
  - pose proof (to_N_lt a). cbn [b2a].
    rewrite !a2b_data by lia. cbn.
    rewrite (byte_of_N_eq a) by lia. reflexivity.
  - pose proof (to_N_lt a). pose proof (to_N_lt b). cbn [b2a].
    rewrite !a2b_data by lia. cbn.
    rewrite (byte_of_N_eq a), (byte_of_N_eq b) by lia. reflexivity.
  - pose proof (to_N_lt a). pose proof (to_N_lt b). pose proof (to_N_lt c).
    cbn [b2a]. rewrite !a2b_data by lia. cbn [N.eqb Pos.eqb].
    rewrite (IH rest). cbn [option_map].
    rewrite (byte_of_N_eq a), (byte_of_N_eq b), (byte_of_N_eq c) by lia.
    reflexivity.
Qed.

Lemma b2a_ascii (data : bytes) : forallb is_ascii (b2a data) = true.
Proof.
  revert data.
  fix IH 1. intros [|a [|b [|c rest]]].
  - reflexivity.
  - pose proof (to_N_lt a). cbn [b2a forallb].
    rewrite !(fun n H => proj2 (proj2 (char_of_spec n H))) by lia.
    reflexivity.
  - pose proof (to_N_lt a). pose proof (to_N_lt b). cbn [b2a forallb].
    rewrite !(fun n H => proj2 (proj2 (char_of_spec n H))) by lia.
    reflexivity.
  - pose proof (to_N_lt a). pose proof (to_N_lt b). pose proof (to_N_lt c).
    cbn [b2a forallb].
    rewrite !(fun n H => proj2 (proj2 (char_of_spec n H))) by lia.
    rewrite (IH rest). reflexivity.
Qed.

(** Decoding what was encoded gives the bytes back. *)
Lemma b64decode_b64encode (data : bytes) :
  b64decode (b64encode data) = Some data.
Proof.
  unfold b64decode, b64encode.
  rewrite list_ascii_of_string_of_list_ascii, b2a_ascii.
  apply a2b_b2a.
Qed.

End B64.

Module RefLaws.
Import Ref.

Lemma byte_sub_add (d p : byte) : byte_sub (byte_add d p) p = d.
Proof.
  unfold byte_sub, byte_add. apply byte_of_N_mod_eq.
  rewrite to_N_byte_of_N.
  pose proof (to_N_lt d). pose proof (to_N_lt p). lia.
Qed.

Lemma mask_sub_add (key nonce data : bytes) (i : nat) :
  mask byte_sub key nonce i (mask byte_add key nonce i data) = data.
Proof.
  revert i. induction data as [|d rest IH]; intros i; cbn [mask].
  - reflexivity.
  - now rewrite byte_sub_add, IH.
Qed.

Lemma mask_length op (key nonce data : bytes) (i : nat) :
  len (mask op key nonce i data) = len data.
Proof.
  revert i. induction data as [|d rest IH]; intros i; cbn [mask len List.length].
  - reflexivity.
  - f_equal. apply IH.
Qed.

Lemma bytes_eqb_refl (a : bytes) : bytes_eqb a a = true.
Proof.
  induction a as [|x a IH]; cbn; [reflexivity|].
  rewrite IH, andb_true_r. now apply Byte.byte_dec_lb.
Qed.

Lemma tag_length (key nonce masked : bytes) : len (tag key nonce masked) = 16%nat.
Proof. apply repeat_length. Qed.

Lemma seal_length (key nonce data : bytes) :
  len (seal key nonce data) = (len data + 16)%nat.
Proof.
  unfold seal, len. rewrite length_app. fold (len (tag key nonce (mask byte_add key nonce 0 data))).
  rewrite tag_length. f_equal. apply mask_length.
Qed.

Lemma open_seal (key nonce data : bytes) :
  open key nonce (seal key nonce data) = Some data.
Proof.
  unfold open. rewrite seal_length.
  replace (len data + 16 - 16)%nat with (len (mask byte_add key nonce 0 data))
    by (rewrite mask_length; lia).
  unfold seal, len.
  rewrite firstn_app, Nat.sub_diag, firstn_all, firstn_O, app_nil_r.
  rewrite skipn_app, Nat.sub_diag, skipn_all, skipn_O.
  cbn [app]. rewrite bytes_eqb_refl, andb_true_r.
  replace (16 <=? _ + 16)%nat with true by (symmetry; apply Nat.leb_le; lia).
  now rewrite mask_sub_add.
Qed.

End RefLaws.

Lemma ref_lawful : Lawful Ref.externals.
Proof.
  split.
  - intros key nonce data _ _. apply RefLaws.open_seal.
  - intros key nonce data _ _. apply RefLaws.seal_length.
Qed.

(** The UTF-8 codec: encoding and decoding are inverse to each other where
    they are defined, and a decoded text encodes. *)
Section CodecFacts.

Lemma encodable_encode (s : str) :
  encodable s = true -> utf8_encode s = Some (list_byte_of_string s).
Proof.
  unfold encodable, utf8_encode.
  now destruct (well_formed_utf8 (list_byte_of_string s)).
Qed.

Lemma not_encodable_encode (s : str) :
  encodable s = false -> utf8_encode s = None.
Proof.
  unfold encodable. now destruct (utf8_encode s).
Qed.

Lemma utf8_decode_encode (s : str) (b : bytes) :
  utf8_encode s = Some b -> utf8_decode b = Some s.
Proof.
  unfold utf8_encode, utf8_decode.
  destruct (well_formed_utf8 (list_byte_of_string s)) eqn:E; [|discriminate].
  intros [= <-]. now rewrite E, string_of_list_byte_of_string.
Qed.

Lemma utf8_encode_decode (b : bytes) (s : str) :
  utf8_decode b = Some s -> utf8_encode s = Some b.
Proof.
  unfold utf8_encode, utf8_decode.
  destruct (well_formed_utf8 b) eqn:E; [|discriminate].
  intros [= <-]. now rewrite list_byte_of_string_of_list_byte, E.
Qed.

Lemma decoded_encodable (b : bytes) (s : str) :
  utf8_decode b = Some s -> encodable s = true.
Proof.
  intros H. unfold encodable. now rewrite (utf8_encode_decode b s H).
Qed.

End CodecFacts.

Section CryptoFacts.
Context {ext : Externals}.

Lemma draw_length (r : Rng) (pos : nat) : len (draw r pos) = 12%nat.
Proof. unfold draw, len. now rewrite length_map, length_seq. Qed.

Lemma key_check_pass (key : bytes) :
  len key = 32%nat -> negb (len key =? CryptoEngine.KEY_SIZE)%nat = false.
Proof. intros ->. reflexivity. Qed.

Lemma key_check_fail (key : bytes) :
  len key <> 32%nat -> negb (len key =? CryptoEngine.KEY_SIZE)%nat = true.
Proof.
  intros H. unfold CryptoEngine.KEY_SIZE.
  destruct (Nat.eqb_spec (len key) 32); [contradiction | reflexivity].
Qed.

(** With a 32-byte key and a text that encodes, [encrypt] draws twelve
    bytes and returns the dictionary built from them. *)
Lemma encrypt_ok (plaintext : str) (key : bytes) (r : Rng) :
  len key = 32%nat -> encodable plaintext = true ->
  CryptoEngine.encrypt plaintext key r =
    (Ok (sealed key (draw r (consumed r)) plaintext),
     {| entropy := entropy r; consumed := consumed r + 12 |}).
Proof.
  intros H He. unfold CryptoEngine.encrypt.
  rewrite (key_check_pass key H). cbn [urandom CryptoEngine.NONCE_SIZE].
  rewrite (encodable_encode plaintext He).
  unfold CryptoEngine.aesgcm_encrypt.
  fold (draw r (consumed r)). rewrite draw_length. reflexivity.
Qed.

(** With a 32-byte key and a text that does not encode, [encrypt] raises
    after the nonce was drawn. *)
Lemma encrypt_not_encodable (plaintext : str) (key : bytes) (r : Rng) :
  len key = 32%nat -> encodable plaintext = false ->
  CryptoEngine.encrypt plaintext key r =
    (Raise UnicodeEncodeError,
     {| entropy := entropy r; consumed := consumed r + 12 |}).
Proof.
  intros H He. unfold CryptoEngine.encrypt.
  rewrite (key_check_pass key H). cbn [urandom CryptoEngine.NONCE_SIZE].
  now rewrite (not_encodable_encode plaintext He).
Qed.

Lemma encrypt_bad_key (plaintext : str) (key : bytes) (r : Rng) :
  len key <> 32%nat ->
  CryptoEngine.encrypt plaintext key r =
    (Raise (ValueError (KeyMustBe32Bytes (len key))), r).
Proof.
  intros H. unfold CryptoEngine.encrypt. now rewrite (key_check_fail key H).
Qed.

Lemma decrypt_sealed {laws : Lawful ext} (plaintext : str) (key iv : bytes) :
  len key = 32%nat -> len iv = 12%nat -> encodable plaintext = true ->
  CryptoEngine.decrypt (sealed key iv plaintext) key = Ok plaintext.
Proof.
  intros Hk Hn He. unfold CryptoEngine.decrypt, sealed.
  rewrite (key_check_pass key Hk). cbn [ciphertext nonce].
  rewrite !B64.b64decode_b64encode.
  unfold CryptoEngine.aesgcm_decrypt. rewrite Hn.
  change ((12 <? 8) || (128 <? 12))%nat with false. cbv iota.
  rewrite (gcm_seal_length key iv _ Hk Hn).
  destruct (Nat.ltb_spec (len (list_byte_of_string plaintext) + 16) 16)
    as [Hlt|_]; [lia|].
  rewrite (gcm_open_seal key iv _ Hk Hn).
  now rewrite (utf8_decode_encode plaintext _ (encodable_encode _ He)).
Qed.

(** What [decrypt] returns is a text that encodes. *)
Lemma decrypt_ok_encodable (blob : EncryptedData) (key : bytes) (p : str) :
  CryptoEngine.decrypt blob key = Ok p -> encodable p = true.
Proof.
  unfold CryptoEngine.decrypt, CryptoEngine.aesgcm_decrypt.
  destruct (negb _); [discriminate|].
  destruct (ciphertext blob) as [c|]; [|discriminate].
  destruct (nonce blob) as [n|]; [|discriminate].
  destruct (Base64.b64decode c) as [ct|]; [|discriminate].
  destruct (Base64.b64decode n) as [nn|]; [|discriminate].
  destruct (_ || _); [discriminate|].
  destruct (len ct <? 16)%nat; [discriminate|].
  destruct (gcm_open key nn ct) as [pb|]; [|discriminate].
  destruct (utf8_decode pb) as [q|] eqn:E; [|discriminate].
  intros [= <-]. exact (decoded_encodable pb q E).
Qed.

Lemma decrypt_bad_key (blob : EncryptedData) (key : bytes) :
  len key <> 32%nat ->
  CryptoEngine.decrypt blob key = Raise (ValueError (KeyMustBe32Bytes (len key))).
Proof.
  intros H. unfold CryptoEngine.decrypt. now rewrite (key_check_fail key H).
Qed.

End CryptoFacts.

(** ** Facts about dictionaries *)

Section DictFacts.
Context {V : Type}.
Implicit Types (d : dict V) (k : str) (v : V).

Lemma dict_get_set_eq k v d : dict_get k (dict_set k v d) = Some v.
Proof.
  induction d as [|[k' v'] d IH]; cbn.
  - now rewrite String.eqb_refl.
  - destruct (String.eqb_spec k' k) as [->|Hne]; cbn.
    + now rewrite String.eqb_refl.
    + destruct (String.eqb_spec k' k); [contradiction | exact IH].
Qed.

Lemma dict_get_set_ne k k' v d :
  k <> k' -> dict_get k' (dict_set k v d) = dict_get k' d.
Proof.
  intros Hne. induction d as [|[k0 v0] d IH]; cbn.
  - destruct (String.eqb_spec k k'); [contradiction | reflexivity].
  - destruct (String.eqb_spec k0 k) as [->|H0]; cbn.
    + destruct (String.eqb_spec k k'); [contradiction | reflexivity].
    + now rewrite IH.
Qed.

Lemma dict_get_del_ne k k' d :
  k <> k' -> dict_get k' (dict_del k d) = dict_get k' d.
Proof.
  intros Hne. induction d as [|[k0 v0] d IH]; cbn; [reflexivity|].
  destruct (String.eqb_spec k0 k) as [->|H0]; cbn.
  - destruct (String.eqb_spec k k'); [contradiction | reflexivity].
  - now rewrite IH.
Qed.

Lemma dict_keys_set_present k v d :
  dict_in k d = true -> dict_keys (dict_set k v d) = dict_keys d.
Proof.
  unfold dict_in. induction d as [|[k0 v0] d IH]; cbn; [discriminate|].
  destruct (String.eqb_spec k0 k) as [->|H0]; cbn; [reflexivity|].
  intros H. f_equal. now apply IH.
Qed.

Lemma dict_set_absent k v d :
  ~ In k (dict_keys d) -> dict_set k v d = d ++ [(k, v)].
Proof.
  induction d as [|[k0 v0] d IH]; cbn; [reflexivity|].
  intros H. destruct (String.eqb_spec k0 k) as [->|H0].
  - exfalso. apply H. now left.
  - f_equal. apply IH. intros Hin. apply H. now right.
Qed.

Lemma dict_get_in_keys k v d : dict_get k d = Some v -> In k (dict_keys d).
Proof.
  induction d as [|[k0 v0] d IH]; cbn; [discriminate|].
  destruct (String.eqb_spec k0 k) as [->|H0]; [now left|].
  intros H. right. now apply IH.
Qed.

Lemma dict_in_set k v d : In k (dict_keys (dict_set k v d)).
Proof. apply (dict_get_in_keys k v), dict_get_set_eq. Qed.

End DictFacts.

Lemma unique_keys_NoDup (keys : list str) :
  unique_keys keys = true <-> NoDup keys.
Proof.
  induction keys as [|k rest IH]; cbn.
  - split; [constructor | reflexivity].
  - rewrite andb_true_iff, negb_true_iff, IH. split.
    + intros [Hk Hr]. constructor; [|exact Hr].
      intros Hin.
      assert (existsb (String.eqb k) rest = true) as E
        by (apply existsb_exists; exists k; split;
            [exact Hin | apply String.eqb_refl]).
      congruence.
    + intros H. inversion H as [|? ? Hnin Hnd]; subst. split; [|exact Hnd].
      destruct (existsb (String.eqb k) rest) eqn:E; [|reflexivity].
      apply existsb_exists in E as (x & Hx & Heq).
      apply String.eqb_eq in Heq. subst x. contradiction.
Qed.

(** ** Facts about versioning.py *)

Section VersionFacts.
Import VersionManager.

Lemma add_version_result (key : str) (blob : EncryptedData)
  (md : option Metadata) (s : VersionManager.t) (c : Clock) :
  fst (fst (add_version key blob md s c)) =
    match current_version_of key s with
    | Some n => (n + 1)%Z
    | None => 1%Z
    end.
Proof.
  unfold add_version, current_version_of, SecretVersion.init.
  destruct (utcnow_z c). cbn. now destruct (dict_get key s).
Qed.

(** [add_version] leaves the key with the new number as its
    [current_version], and the new version, holding the blob given, as the
    last of its versions. *)
Lemma add_version_state (key : str) (blob : EncryptedData)
  (md : option Metadata) (s : VersionManager.t) (c : Clock) :
  exists ts,
    let '(n, s', _) := add_version key blob md s c in
    let old := match dict_get key s with
               | Some data => versions data
               | None => []
               end in
    dict_get key s' =
      Some {| versions :=
                old ++ [{| SecretVersion.version := n;
                           SecretVersion.encrypted_value := blob;
                           SecretVersion.timestamp := ts;
                           SecretVersion.metadata :=
                             match md with Some m => m | None => [] end |}];
              current_version := n |}.
Proof.
  unfold add_version, SecretVersion.init.
  destruct (utcnow_z c) as [now c']. exists now. cbn.
  rewrite dict_get_set_eq. now destruct (dict_get key s).
Qed.

Lemma add_version_other (key key' : str) (blob : EncryptedData)
  (md : option Metadata) (s : VersionManager.t) (c : Clock) :
  key <> key' ->
  dict_get key' (snd (fst (add_version key blob md s c))) = dict_get key' s.
Proof.
  intros Hne. unfold add_version, SecretVersion.init.
  destruct (utcnow_z c). cbn. now apply dict_get_set_ne.
Qed.


Lemma delete_key_other (key k : str) (s : VersionManager.t) :
  key <> k -> dict_get k (snd (delete_key key s)) = dict_get k s.
Proof.
  intros Hne. unfold delete_key.
  destruct (dict_in key s); cbn; [now apply dict_get_del_ne | reflexivity].
Qed.

End VersionFacts.



(** From the document to the manager and back, version by version. *)
Lemma version_round_trip (v : VersionDict) (c : Clock) :
  valid_version_dict v = true ->
  exists x, SecretVersion.from_dict v c = (x, c) /\ SecretVersion.to_dict x = v.
Proof.
  unfold valid_version_dict, SecretVersion.from_dict, SecretVersion.init.
  destruct v as [n blob [[|a t]|] [m|]]; cbn; try discriminate.
  intros _. eexists. split; reflexivity.
Qed.

Lemma versions_round_trip (vs : list VersionDict) (c : Clock) :
  forallb valid_version_dict vs = true ->
  exists xs, VersionManager.versions_from_dict vs c = (xs, c)
             /\ map SecretVersion.to_dict xs = vs.
Proof.
  induction vs as [|v vs IH]; cbn.
  - intros _. exists []. split; reflexivity.
  - intros H. apply andb_true_iff in H as [Hv Hvs].
    destruct (version_round_trip v c Hv) as (x & Hx & Hxv).
    destruct (IH Hvs) as (xs & Hxs & Hmap).
    rewrite Hx, Hxs. exists (x :: xs). split; [reflexivity|].
    cbn. now rewrite Hxv, Hmap.
Qed.

Lemma to_dict_app (a b : VersionManager.t) :
  VersionManager.to_dict (a ++ b)
    = VersionManager.to_dict a ++ VersionManager.to_dict b.
Proof. apply map_app. Qed.

Lemma to_dict_keys (a : VersionManager.t) :
  dict_keys (VersionManager.to_dict a) = dict_keys a.
Proof.
  unfold dict_keys, VersionManager.to_dict. rewrite map_map.
  apply map_ext. now intros [k data].
Qed.

Lemma from_dict_items_round_trip (items : Document) (acc : VersionManager.t)
  (c : Clock) :
  NoDup (dict_keys acc ++ dict_keys items) ->
  forallb (fun item : str * KeyDict =>
             forallb valid_version_dict (dict_versions (snd item))) items
    = true ->
  exists s, VersionManager.from_dict_items items acc c = (s, c)
            /\ VersionManager.to_dict s = VersionManager.to_dict acc ++ items.
Proof.
  revert acc. induction items as [|[k kd] items IH]; intros acc Hnd Hvalid.
  - exists acc. split; [reflexivity | now rewrite app_nil_r].
  - cbn in Hvalid. apply andb_true_iff in Hvalid as [Hkd Hitems].
    destruct (versions_round_trip (dict_versions kd) c Hkd) as (xs & Hxs & Hmap).
    cbn [VersionManager.from_dict_items]. rewrite Hxs.
    cbn [dict_keys map fst] in Hnd.
    assert (~ In k (dict_keys acc)) as Hnin.
    { apply NoDup_remove_2 in Hnd. intros Hin. apply Hnd.
      apply in_or_app. now left. }
    rewrite (dict_set_absent k _ acc Hnin).
    destruct (IH (acc ++ [(k, {| VersionManager.versions := xs;
                                 VersionManager.current_version :=
                                   dict_current_version kd |})]))
      as (s & Hs & Hto).
    + unfold dict_keys. rewrite map_app. cbn [map fst].
      rewrite <- app_assoc. exact Hnd.
    + exact Hitems.
    + exists s. split; [exact Hs|].
      rewrite Hto, to_dict_app, <- app_assoc. f_equal. cbn.
      rewrite Hmap. now destruct kd.
Qed.

(** ** Facts about vault.py *)

Section VaultFacts.
Context {ext : Externals}.
Import MobileSecretsVault.

Lemma decrypt_raises (blob : EncryptedData) (key : bytes) (e : exn) :
  CryptoEngine.decrypt blob key = Raise e -> crypto_exn e.
Proof.
  unfold CryptoEngine.decrypt, CryptoEngine.aesgcm_decrypt.
  destruct (negb _); [intros [= <-]; exact I|].
  destruct (ciphertext blob) as [c|]; [|intros [= <-]; exact I].
  destruct (nonce blob) as [n|]; [|intros [= <-]; exact I].
  destruct (Base64.b64decode c) as [ct|]; [|intros [= <-]; exact I].
  destruct (Base64.b64decode n) as [nn|]; [|intros [= <-]; exact I].
  destruct (_ || _); [intros [= <-]; exact I|].
  destruct (len ct <? 16)%nat; [intros [= <-]; exact I|].
  destruct (gcm_open key nn ct) as [pb|]; [|intros [= <-]; exact I].
  destruct (utf8_decode pb); [discriminate | intros [= <-]; exact I].
Qed.

(** What [get] returns, and that it leaves key and store alone. *)
Lemma get_spec (key : str) (version : option Z) (self : Vault) :
  exists self',
    get key version self =
      (match VersionManager.get_version key version (version_manager self) with
       | None => Raise (SecretNotFoundError key)
       | Some sv =>
           match CryptoEngine.decrypt (SecretVersion.encrypted_value sv)
                                      (master_key self) with
           | Ok plaintext => Ok plaintext
           | Raise e => Raise (VaultError FailedToGetSecret e)
           end
       end, self')
    /\ master_key self' = master_key self
    /\ version_manager self' = version_manager self.
Proof.
  unfold get, try_except, bind, attr, crypto_decrypt, raise, ret.
  destruct (VersionManager.get_version key version (version_manager self))
    as [sv|].
  - destruct (CryptoEngine.decrypt (SecretVersion.encrypted_value sv)
                                   (master_key self)) as [p|e] eqn:E.
    + eexists. split; [reflexivity|]. split; reflexivity.
    + pose proof (decrypt_raises _ _ _ E) as He.
      destruct e; try contradiction;
        (eexists; split; [reflexivity|]; split; reflexivity).
  - eexists. split; [reflexivity|]. split; reflexivity.
Qed.

(** What [set] does with a 32-byte master key and a value that encodes. *)
Lemma set_spec (key value : str) (md : option Metadata) (self : Vault) :
  len (master_key self) = 32%nat -> encodable value = true ->
  let blob := sealed (master_key self) (draw (rng self) (consumed (rng self)))
                     value in
  let added := VersionManager.add_version key blob md (version_manager self)
                                          (clock self) in
  exists self',
    set key value md self = (Ok (fst (fst added)), self')
    /\ master_key self' = master_key self
    /\ version_manager self' = snd (fst added).
Proof.
  intros Hk He blob added.
  unfold set, try_except, bind, crypto_encrypt, vm_add_version, attr.
  rewrite (encrypt_ok value (master_key self) (rng self) Hk He).
  cbn [rng set_rng master_key version_manager clock].
  fold blob. fold added. destruct added as [[n vm] c]. cbn.
  destruct (auto_save self); cbn;
    (eexists; split; [reflexivity|]; split; reflexivity).
Qed.

(** [get_version] with no version number, right after [add_version]. *)
Lemma get_latest_after_add (key : str) (blob : EncryptedData)
  (md : option Metadata) (s : VersionManager.t) (c : Clock) :
  exists sv,
    VersionManager.get_version
      key None (snd (fst (VersionManager.add_version key blob md s c)))
      = Some sv
    /\ SecretVersion.encrypted_value sv = blob
    /\ SecretVersion.version sv
       = fst (fst (VersionManager.add_version key blob md s c)).
Proof.
  destruct (add_version_state key blob md s c) as [ts H].
  destruct (VersionManager.add_version key blob md s c) as [[n s'] c'].
  cbn [fst snd]. unfold VersionManager.get_version. rewrite H.
  cbn [VersionManager.versions].
  set (old := match dict_get key s with
              | Some data => VersionManager.versions data
              | None => []
              end).
  cbv zeta in H. fold old in H.
  eexists. split; [|split].
  - destruct (old ++ _) as [|first rest] eqn:E.
    + now destruct old.
    + rewrite <- E. rewrite last_last. reflexivity.
  - reflexivity.
  - reflexivity.
Qed.

(** [set] followed by [get]. *)
Lemma set_get (key value : str) (md : option Metadata) (self : Vault)
  {laws : Lawful ext} :
  len (master_key self) = 32%nat -> encodable value = true ->
  exists self1 self2,
    set key value md self =
      (Ok (match current_version_of key (version_manager self) with
           | Some n => (n + 1)%Z
           | None => 1%Z
           end), self1)
    /\ get key None self1 = (Ok value, self2)
    /\ In key (VersionManager.get_all_keys (version_manager self2)).
Proof.
  intros Hk He.
  destruct (set_spec key value md self Hk He) as (self1 & Hset & Hmk & Hvm).
  destruct (get_spec key None self1) as (self2 & Hget & Hmk2 & Hvm2).
  exists self1, self2.
  rewrite add_version_result in Hset. split; [exact Hset|].
  rewrite Hget, Hvm, Hvm2, Hvm, Hmk.
  destruct (get_latest_after_add key
              (sealed (master_key self)
                      (draw (rng self) (consumed (rng self))) value)
              md (version_manager self) (clock self)) as (sv & Hsv & Hblob & _).
  rewrite Hsv, Hblob.
  rewrite (decrypt_sealed value (master_key self) _ Hk (draw_length _ _) He).
  split; [reflexivity|].
  unfold VersionManager.get_all_keys.
  destruct (add_version_state key
              (sealed (master_key self)
                      (draw (rng self) (consumed (rng self))) value)
              md (version_manager self) (clock self)) as [ts Hst].
  destruct (VersionManager.add_version _ _ _ _ _) as [[n s'] c'].
  cbn [fst snd]. apply (dict_get_in_keys _ _ _ Hst).
Qed.

(** A vault opened on a host without a stored document is empty. *)
Lemma init_fresh (key : bytes) (env_key : option str)
  (key_file : option KeyFile) (default_key_file : KeyFile)
  (file : StorageBackend.t) (auto : bool) (r : Rng) (c : Clock) :
  StorageBackend.load file = Ok [] ->
  exists self,
    init (Some key) env_key key_file default_key_file file auto r c = Ok self
    /\ master_key self = key
    /\ version_manager self = []
    /\ auto_save self = auto.
Proof.
  intros Hload. unfold init, _load_master_key, bind, _load_secrets.
  cbn [storage]. rewrite Hload. cbn.
  eexists. split; [reflexivity|]. repeat split.
Qed.

(** [delete] when it has nothing to write. *)
Lemma delete_without_write (key : str) (self : Vault) :
  dict_in key (version_manager self) && auto_save self = false ->
  exists self',
    delete key self = (Ok (dict_in key (version_manager self)), self')
    /\ storage self' = storage self.
Proof.
  intros Hnw.
  unfold delete, try_except, bind, attr, VersionManager.delete_key.
  destruct (dict_in key (version_manager self)); cbn in *.
  - rewrite Hnw. cbn. eexists. split; reflexivity.
  - eexists. split; reflexivity.
Qed.

Lemma list_versions_ok (key : str) (self : Vault) :
  exists self',
    list_versions key self
      = (Ok (VersionManager.list_versions key (version_manager self)), self').
Proof.
  unfold list_versions, try_except, bind, attr. cbn. eexists. reflexivity.
Qed.

End VaultFacts.

(** ** Facts about rotation *)

Section RotationFacts.
Context {ext : Externals}.
Import VersionManager.

(** The three ways the body of the inner loop can go. *)
Lemma rotate_version_cases (key : str) (old_key new_key : bytes)
  (v : SecretVersion.t) (r : Rng) (out : list Printed) :
  rotate_version key old_key new_key v r out =
    match CryptoEngine.decrypt (SecretVersion.encrypted_value v) old_key with
    | Raise e =>
        (v, r, out ++ [WarningFailedToRotate key (SecretVersion.version v) e])
    | Ok plaintext =>
        if (len new_key =? 32)%nat
        then (SecretVersion.set_encrypted_value
                v (sealed new_key (draw r (consumed r)) plaintext),
              {| entropy := entropy r; consumed := consumed r + 12 |}, out)
        else (v, r,
              out ++ [WarningFailedToRotate
                        key (SecretVersion.version v)
                        (ValueError (KeyMustBe32Bytes (len new_key)))])
    end.
Proof.
  unfold rotate_version.
  destruct (CryptoEngine.decrypt _ old_key) as [p|e] eqn:E; [|reflexivity].
  destruct (Nat.eqb_spec (len new_key) 32) as [H|H].
  - now rewrite (encrypt_ok p new_key r H (decrypt_ok_encodable _ _ _ E)).
  - now rewrite (encrypt_bad_key p new_key r H).
Qed.

Lemma rotate_version_related (key : str) (old_key new_key : bytes)
  (v : SecretVersion.t) (r : Rng) (out : list Printed) :
  rotated_version old_key new_key v
    (fst (fst (rotate_version key old_key new_key v r out))).
Proof.
  rewrite rotate_version_cases. unfold rotated_version.
  destruct (CryptoEngine.decrypt _ old_key) as [p|e].
  - destruct (len new_key =? 32)%nat; cbn; repeat split.
    exists (draw r (consumed r)). split; [apply draw_length | reflexivity].
  - cbn. repeat split.
Qed.

Lemma rotate_versions_related (key : str) (old_key new_key : bytes)
  (vs : list SecretVersion.t) (r : Rng) (out : list Printed) :
  Forall2 (rotated_version old_key new_key) vs
          (fst (fst (rotate_versions key old_key new_key vs r out))).
Proof.
  revert r out. induction vs as [|v vs IH]; intros r out; cbn.
  - constructor.
  - pose proof (rotate_version_related key old_key new_key v r out) as Hv.
    destruct (rotate_version key old_key new_key v r out) as [[v' r1] out1].
    specialize (IH r1 out1).
    destruct (rotate_versions key old_key new_key vs r1 out1)
      as [[vs' r2] out2].
    cbn in *. now constructor.
Qed.

Lemma rotate_key_related (old_key new_key : bytes) (s : VersionManager.t)
  (r : Rng) (out : list Printed) :
  Forall2 (rotated_entry old_key new_key) s
          (fst (fst (rotate_key old_key new_key s r out))).
Proof.
  revert r out. induction s as [|[k data] s IH]; intros r out; cbn.
  - constructor.
  - pose proof (rotate_versions_related k old_key new_key (versions data) r out)
      as Hvs.
    destruct (rotate_versions k old_key new_key (versions data) r out)
      as [[vs' r1] out1].
    specialize (IH r1 out1).
    destruct (rotate_key old_key new_key s r1 out1) as [[s' r2] out2].
    cbn in *. constructor; [|exact IH].
    unfold rotated_entry. cbn. repeat split. exact Hvs.
Qed.

Lemma last_related (old_key new_key : bytes) (l l' : list SecretVersion.t)
  (d d' : SecretVersion.t) :
  Forall2 (rotated_version old_key new_key) l l' ->
  rotated_version old_key new_key d d' ->
  rotated_version old_key new_key (last l d) (last l' d').
Proof.
  intros H. revert d d'. induction H as [|x y l l' Hxy Hl IH]; intros d d' Hd.
  - exact Hd.
  - cbn. destruct Hl as [|x2 y2 l2 l2' Hxy2 Hl2]; [exact Hxy|].
    apply IH. exact Hd.
Qed.

Lemma find_related (old_key new_key : bytes) (n : Z)
  (l l' : list SecretVersion.t) :
  Forall2 (rotated_version old_key new_key) l l' ->
  related_option old_key new_key
    (find (fun v => (SecretVersion.version v =? n)%Z) l)
    (find (fun v => (SecretVersion.version v =? n)%Z) l').
Proof.
  induction 1 as [|x y l l' Hxy Hl IH]; cbn; [exact I|].
  destruct Hxy as (Hver & Hrest). rewrite Hver.
  destruct (SecretVersion.version x =? n)%Z; [|exact IH].
  cbn. split; [exact Hver | exact Hrest].
Qed.

Lemma get_version_related (old_key new_key : bytes) (key : str)
  (version : option Z) (s s' : VersionManager.t) :
  Forall2 (rotated_entry old_key new_key) s s' ->
  related_option old_key new_key
    (get_version key version s) (get_version key version s').
Proof.
  unfold get_version.
  induction 1 as [|[k data] [k' data'] s s' Hent Hs IH]; cbn; [exact I|].
  destruct Hent as (Hk & Hcv & Hvs). cbn in Hk, Hcv, Hvs. subst k'.
  destruct (String.eqb k key); [|exact IH].
  destruct Hvs as [|x y l l' Hxy Hl]; [exact I|].
  destruct version as [n|].
  - apply find_related. now constructor.
  - cbn [related_option]. apply last_related; [now constructor | exact Hxy].
Qed.

Lemma related_keys (old_key new_key : bytes) (s s' : VersionManager.t) :
  Forall2 (rotated_entry old_key new_key) s s' ->
  get_all_keys s' = get_all_keys s
  /\ forall key, current_version_of key s' = current_version_of key s.
Proof.
  unfold get_all_keys, dict_keys, current_version_of.
  induction 1 as [|[k data] [k' data'] s s' Hent Hs IH]; cbn.
  - split; reflexivity.
  - destruct Hent as (Hk & Hcv & _). cbn in Hk, Hcv. subst k'.
    destruct IH as [IHk IHc]. split; [now rewrite IHk|].
    intros key. destruct (String.eqb k key); [cbn; now rewrite Hcv | apply IHc].
Qed.

(** A version that [get_version] returns is one of the stored versions. *)
Lemma last_in (l : list SecretVersion.t) (x d : SecretVersion.t) :
  In (last (x :: l) d) (x :: l).
Proof.
  revert x. induction l as [|y l IH]; intros x.
  - now left.
  - right. apply (IH y).
Qed.

Lemma get_version_in (key : str) (version : option Z) (s : VersionManager.t)
  (v : SecretVersion.t) :
  get_version key version s = Some v -> In (key, v) (all_versions s).
Proof.
  unfold get_version, all_versions.
  induction s as [|[k data] s IH]; cbn; [discriminate|].
  destruct (String.eqb_spec k key) as [->|Hne].
  - intros H. apply in_or_app. left. apply in_map.
    destruct (versions data) as [|first rest]; [discriminate|].
    destruct version as [n|].
    + now apply find_some in H.
    + injection H as <-. apply last_in.
  - intros H. apply in_or_app. right. now apply IH.
Qed.

End RotationFacts.

Section RotationAllDecrypt.
Context {ext : Externals}.
Import VersionManager.

Lemma decrypts_under_ok (key : bytes) (v : SecretVersion.t) :
  decrypts_under key v = true ->
  exists p, CryptoEngine.decrypt (SecretVersion.encrypted_value v) key = Ok p.
Proof.
  unfold decrypts_under.
  destruct (CryptoEngine.decrypt _ key) as [p|e]; [|discriminate].
  intros _. now exists p.
Qed.

(** When every version decrypts and the new key has 32 bytes, the inner
    loop draws one nonce per version, in order, and prints nothing. *)
Lemma rotate_versions_all (key : str) (old_key new_key : bytes)
  (vs : list SecretVersion.t) (r : Rng) (out : list Printed) :
  len new_key = 32%nat ->
  forallb (decrypts_under old_key) vs = true ->
  exists vs',
    rotate_versions key old_key new_key vs r out =
      (vs', {| entropy := entropy r;
               consumed := consumed r + 12 * List.length vs |}, out)
    /\ List.length vs' = List.length vs
    /\ forall j v,
         nth_error vs j = Some v ->
         exists p,
           CryptoEngine.decrypt (SecretVersion.encrypted_value v) old_key = Ok p
           /\ nth_error vs' j =
                Some (SecretVersion.set_encrypted_value
                        v (sealed new_key (draw r (consumed r + 12 * j)) p)).
Proof.
  intros Hnew. revert r. induction vs as [|v vs IH]; intros r Hall.
  - exists []. cbn. rewrite Nat.add_0_r. destruct r. repeat split.
    intros [|j] v H; discriminate.
  - cbn in Hall. apply andb_true_iff in Hall as [Hv Hvs].
    destruct (decrypts_under_ok old_key v Hv) as [p Hp].
    cbn [rotate_versions]. rewrite rotate_version_cases, Hp, Hnew. cbn [Nat.eqb].
    destruct (IH {| entropy := entropy r; consumed := consumed r + 12 |} Hvs)
      as (vs' & Hrun & Hlen & Hnth).
    rewrite Hrun. cbn [entropy consumed] in *.
    replace (consumed r + 12 * List.length (v :: vs))
      with (consumed r + 12 + 12 * List.length vs)
      by (cbn [List.length]; lia).
    eexists. split; [reflexivity|split].
    + cbn. now rewrite Hlen.
    + intros [|j] w Hw; cbn in Hw.
      * injection Hw as <-. exists p. split; [exact Hp|].
        cbn. now rewrite Nat.add_0_r.
      * destruct (Hnth j w Hw) as (q & Hq & Hj). exists q. split; [exact Hq|].
        cbn [nth_error]. rewrite Hj. do 3 f_equal.
        unfold draw. cbn [entropy]. f_equal. f_equal. lia.
Qed.

Lemma forallb_map_pair (key : str) (f : SecretVersion.t -> bool)
  (vs : list SecretVersion.t) :
  forallb (fun kv : str * SecretVersion.t => f (snd kv)) (map (pair key) vs)
    = forallb f vs.
Proof. induction vs as [|v vs IH]; cbn; [reflexivity | now rewrite IH]. Qed.

Lemma all_versions_cons (key : str) (data : KeyData) (s : VersionManager.t) :
  all_versions ((key, data) :: s)
    = map (pair key) (versions data) ++ all_versions s.
Proof. reflexivity. Qed.

Lemma rotate_key_all (old_key new_key : bytes) (s : VersionManager.t)
  (r : Rng) (out : list Printed) :
  len new_key = 32%nat ->
  all_decrypt old_key s = true ->
  exists s',
    rotate_key old_key new_key s r out =
      (s', {| entropy := entropy r;
              consumed := consumed r + 12 * List.length (all_versions s) |},
       out)
    /\ List.length (all_versions s') = List.length (all_versions s)
    /\ forall j k v,
         nth_error (all_versions s) j = Some (k, v) ->
         exists p,
           CryptoEngine.decrypt (SecretVersion.encrypted_value v) old_key = Ok p
           /\ nth_error (all_versions s') j =
                Some (k, SecretVersion.set_encrypted_value
                           v (sealed new_key (draw r (consumed r + 12 * j)) p)).
Proof.
  intros Hnew. unfold all_decrypt. revert r.
  induction s as [|[key data] s IH]; intros r Hall.
  - exists []. cbn. rewrite Nat.add_0_r. destruct r. repeat split.
    intros [|j] k v H; discriminate.
  - rewrite all_versions_cons, forallb_app, forallb_map_pair in Hall.
    apply andb_true_iff in Hall as [Hhere Hrest].
    destruct (rotate_versions_all key old_key new_key (versions data) r out
                                  Hnew Hhere) as (vs' & Hrun & Hlen & Hnth).
    cbn [rotate_key]. rewrite Hrun.
    destruct (IH {| entropy := entropy r;
                    consumed := consumed r + 12 * List.length (versions data) |}
                 Hrest) as (s' & Hrun' & Hlen' & Hnth').
    rewrite Hrun'. cbn [entropy consumed] in *.
    exists ((key, {| versions := vs';
                     current_version := current_version data |}) :: s').
    rewrite !all_versions_cons. cbn [versions].
    split; [|split].
    + rewrite length_app, length_map, Nat.mul_add_distr_l, Nat.add_assoc.
      reflexivity.
    + rewrite !length_app, !length_map. now rewrite Hlen, Hlen'.
    + intros j k v Hj.
      destruct (Nat.lt_ge_cases j (List.length (versions data))) as [Hlt|Hge].
      * rewrite nth_error_app1 in Hj by now rewrite length_map.
        rewrite nth_error_map in Hj.
        destruct (nth_error (versions data) j) as [w|] eqn:Ew; [|discriminate].
        injection Hj as <- <-.
        destruct (Hnth j w Ew) as (p & Hp & Hw). exists p. split; [exact Hp|].
        rewrite nth_error_app1 by (rewrite length_map; lia).
        now rewrite nth_error_map, Hw.
      * rewrite nth_error_app2 in Hj by now rewrite length_map.
        rewrite length_map in Hj.
        destruct (Hnth' _ k v Hj) as (p & Hp & Hw). exists p. split; [exact Hp|].
        rewrite nth_error_app2 by (rewrite length_map; lia).
        rewrite length_map, Hlen, Hw. do 4 f_equal.
        unfold draw. cbn [entropy]. f_equal. f_equal. lia.
Qed.

End RotationAllDecrypt.

Section RotateFacade.
Context {ext : Externals}.
Import MobileSecretsVault.

(** [rotate] with a key given: no step of it raises on the reliable file
    system of [StorageBackend], and it leaves the store [rotate_key]
    computes, the new master key and the saved document. *)
Lemma rotate_spec (new_key : bytes) (self : Vault) :
  let rotated :=
    VersionManager.rotate_key (master_key self) new_key (version_manager self)
                              (rng self) (stdout self) in
  exists self',
    rotate (Some new_key) self
      = (Ok (match new_key with [] => None | _ => Some new_key end), self')
    /\ master_key self' = new_key
    /\ version_manager self' = fst (fst rotated)
    /\ rng self' = snd (fst rotated)
    /\ stdout self' = snd rotated
    /\ StorageBackend.filepath (storage self')
       = StorageBackend.Yaml (VersionManager.to_dict (fst (fst rotated))).
Proof.
  intros rotated.
  unfold rotate, try_except, bind, ret, attr, vm_rotate_key, save, list_keys,
    audit_log.
  fold rotated. destruct rotated as [[vm r] out]. cbn.
  eexists. split; [reflexivity|]. repeat split.
Qed.


End RotateFacade.

(** * The claims *)

(** ** Claims about crypto.py *)

(** C8 as the code has it.  For every 32-byte key [K] and every state of
    the random source: when the plaintext [v] encodes as UTF-8,
    [encrypt(v, K)] succeeds and [decrypt(encrypt(v, K), K)] returns exactly
    [v]; when it does not (a [str] that holds a lone surrogate),
    [encrypt(v, K)] draws its nonce and raises [UnicodeEncodeError]. *)
Theorem C8_encrypt_decrypt_roundtrip {ext : Externals} {laws : Lawful ext}
  (v : str) (K : bytes) (r : Rng) :
  len K = 32%nat ->
  (encodable v = true ->
   exists blob r',
     CryptoEngine.encrypt v K r = (Ok blob, r')
     /\ CryptoEngine.decrypt blob K = Ok v)
  /\ (encodable v = false ->
      CryptoEngine.encrypt v K r
        = (Raise UnicodeEncodeError,
           {| entropy := entropy r; consumed := consumed r + 12 |})).
Proof.
  intros HK. split; intros He.
  - eexists. eexists. split.
    + apply encrypt_ok; [exact HK | exact He].
    + apply decrypt_sealed; [exact HK | apply draw_length | exact He].
  - apply encrypt_not_encodable; [exact HK | exact He].
Qed.

Lemma C8_witness :
  len Ref.key_a = 32%nat
  /\ encodable "hunter2" = true
  /\ exists blob r',
       CryptoEngine.encrypt (ext := Ref.externals) "hunter2"%string Ref.key_a Ref.rng0
         = (Ok blob, r')
       /\ CryptoEngine.decrypt (ext := Ref.externals) blob Ref.key_a
          = Ok "hunter2"%string.
Proof.
  split; [reflexivity|]. split; [reflexivity|].
  apply (proj1 (C8_encrypt_decrypt_roundtrip (laws := ref_lawful)
                  "hunter2"%string Ref.key_a Ref.rng0 eq_refl)).
  reflexivity.
Defined.

(** C8 as stated fails: the text ['\ud800'] is a [str], the key has 32
    bytes, and [encrypt] raises [UnicodeEncodeError], twelve random bytes
    spent, instead of returning a blob to decrypt. *)
Lemma C8_counterexample :
  len Ref.key_a = 32%nat
  /\ utf8_encode Ref.lone_surrogate = None
  /\ fst (CryptoEngine.encrypt (ext := Ref.externals)
                               Ref.lone_surrogate Ref.key_a Ref.rng0)
     = Raise UnicodeEncodeError
  /\ consumed (snd (CryptoEngine.encrypt (ext := Ref.externals)
                                         Ref.lone_surrogate Ref.key_a Ref.rng0))
     = 12%nat.
Proof. repeat split. Qed.

(** C9 as the code has it.  [decrypt] fails with a key-length error for
    every key whose length is not 32 bytes, whatever the blob.  With a
    32-byte key it fails with a malformed-blob error for every blob in
    which the ciphertext or the nonce is missing; and when both fields are
    present it fails with a malformed-blob error exactly when the lenient
    decoder [b64decode] rejects one of them. *)
Theorem C9_decrypt_error_kinds {ext : Externals} :
  (forall blob key,
      len key <> 32%nat ->
      CryptoEngine.decrypt blob key
        = Raise (ValueError (KeyMustBe32Bytes (len key)))
      /\ kind_of (ValueError (KeyMustBe32Bytes (len key))) = KeyLengthError)
  /\ (forall blob key,
         len key = 32%nat ->
         ciphertext blob = None \/ nonce blob = None ->
         CryptoEngine.decrypt blob key
           = Raise (ValueError MustContainCiphertextAndNonce)
         /\ kind_of (ValueError MustContainCiphertextAndNonce)
            = MalformedBlobError)
  /\ (forall blob key c n,
         len key = 32%nat ->
         ciphertext blob = Some c -> nonce blob = Some n ->
         (Base64.b64decode c = None \/ Base64.b64decode n = None
          <-> exists e, CryptoEngine.decrypt blob key = Raise e
                        /\ kind_of e = MalformedBlobError)).
Proof.
  split; [|split].
  - intros blob key H. split; [now apply decrypt_bad_key | reflexivity].
  - intros blob key Hk Hmiss. split; [|reflexivity].
    unfold CryptoEngine.decrypt. rewrite (key_check_pass key Hk).
    destruct Hmiss as [-> | ->]; [reflexivity|].
    now destruct (ciphertext blob).
  - intros blob key c n Hk Hc Hn.
    unfold CryptoEngine.decrypt. rewrite (key_check_pass key Hk), Hc, Hn.
    destruct (Base64.b64decode c) as [ct|] eqn:Ec.
    + destruct (Base64.b64decode n) as [nn|] eqn:En.
      * split; [intros [H|H]; discriminate|].
        intros (e & He & Hkind). exfalso. revert He Hkind.
        unfold CryptoEngine.aesgcm_decrypt.
        destruct ((len nn <? 8)%nat || (128 <? len nn)%nat);
          [intros [= <-]; discriminate|].
        destruct (len ct <? 16)%nat; [intros [= <-]; discriminate|].
        destruct (gcm_open key nn ct) as [pb|]; [|intros [= <-]; discriminate].
        destruct (utf8_decode pb); [discriminate | intros [= <-]; discriminate].
      * split; [|now right]. intros _. eexists. split; reflexivity.
    + split; [|now left]. intros _. eexists. split; reflexivity.
Qed.

Lemma C9_witness :
  CryptoEngine.decrypt (ext := Ref.externals)
      {| ciphertext := Some "AAAA"%string; nonce := Some "AAAA"%string |}
      [x00; x01]
    = Raise (ValueError (KeyMustBe32Bytes 2))
  /\ CryptoEngine.decrypt (ext := Ref.externals)
       {| ciphertext := Some "AAAA"%string; nonce := None |} Ref.key_a
     = Raise (ValueError MustContainCiphertextAndNonce)
  /\ exists e,
       CryptoEngine.decrypt (ext := Ref.externals)
         {| ciphertext := Some "AAAAA"%string;
            nonce := Some "AAAAAAAAAAAAAAAA"%string |} Ref.key_a
       = Raise e
       /\ kind_of e = MalformedBlobError.
Proof.
  destruct (C9_decrypt_error_kinds (ext := Ref.externals)) as (H1 & H2 & H3).
  split; [|split].
  - apply (H1 _ [x00; x01]). discriminate.
  - apply (H2 {| ciphertext := Some "AAAA"%string; nonce := None |} Ref.key_a);
      [reflexivity | now right].
  - apply (H3 {| ciphertext := Some "AAAAA"%string;
                 nonce := Some "AAAAAAAAAAAAAAAA"%string |}
              Ref.key_a "AAAAA"%string "AAAAAAAAAAAAAAAA"%string);
      [reflexivity | reflexivity | reflexivity | now left].
Defined.

(** C9 as stated fails: the ciphertext field ["!"] is present and is not
    base64 text, yet the decoder skips the character and returns no bytes;
    [decrypt] then fails on the tag, not with a malformed-blob error. *)
Lemma C9_counterexample :
  let blob := {| ciphertext := Some "!"%string;
                 nonce := Some "AAAAAAAAAAAAAAAA"%string |} in
  let no_nonce := {| ciphertext := Some "AAAA"%string; nonce := None |} in
  (len Ref.key_a = 32%nat
   /\ Base64.valid_base64_text "!"%string = false
   /\ Base64.b64decode "!"%string = Some []
   /\ CryptoEngine.decrypt (ext := Ref.externals) blob Ref.key_a
      = Raise InvalidTag
   /\ kind_of InvalidTag <> MalformedBlobError)
  /\ (CryptoEngine.decrypt (ext := Ref.externals) no_nonce [x00; x01]
      = Raise (ValueError (KeyMustBe32Bytes 2))
      /\ kind_of (ValueError (KeyMustBe32Bytes 2)) <> MalformedBlobError).
Proof. cbv zeta. repeat split; try reflexivity; discriminate. Qed.

(** ** Claims about versioning.py *)

(** C5 as the code has it.  For every key [k] whose versions list holds
    exactly one version, numbered [n], [delete_version(k, n)] reports the
    deletion and empties the list, but keeps the key's entry with its
    [current_version]: [k] is still among [get_all_keys()], the keys are
    the same as before, and [get_version(k, ...)] finds nothing. *)
Theorem C5_delete_last_version_keeps_key (s : VersionManager.t) (k : str)
  (n : Z) (data : VersionManager.KeyData) (v : SecretVersion.t) :
  dict_get k s = Some data ->
  VersionManager.versions data = [v] ->
  SecretVersion.version v = n ->
  exists s',
    VersionManager.delete_version k n s = (true, s')
    /\ dict_get k s'
       = Some {| VersionManager.versions := [];
                 VersionManager.current_version :=
                   VersionManager.current_version data |}
    /\ In k (VersionManager.get_all_keys s')
    /\ VersionManager.get_all_keys s' = VersionManager.get_all_keys s
    /\ forall ver, VersionManager.get_version k ver s' = None.
Proof.
  intros Hget Hvs Hn. unfold VersionManager.delete_version.
  rewrite Hget, Hvs. cbn [filter]. rewrite Hn, Z.eqb_refl. cbn.
  eexists. split; [reflexivity|].
  split; [apply dict_get_set_eq|].
  split; [apply dict_in_set|].
  split.
  - apply dict_keys_set_present. unfold dict_in. now rewrite Hget.
  - intros ver. unfold VersionManager.get_version.
    now rewrite dict_get_set_eq.
Qed.

Lemma C5_witness :
  let v := {| SecretVersion.version := 1;
              SecretVersion.encrypted_value := Ref.blob "v1" "1";
              SecretVersion.timestamp := "2025-01-01T00:00:00Z";
              SecretVersion.metadata := [] |} in
  let data := {| VersionManager.versions := [v];
                 VersionManager.current_version := 1 |} in
  exists s',
    VersionManager.delete_version "K" 1 [("K"%string, data)] = (true, s')
    /\ dict_get "K" s'
       = Some {| VersionManager.versions := [];
                 VersionManager.current_version := 1 |}
    /\ In "K"%string (VersionManager.get_all_keys s')
    /\ VersionManager.get_all_keys s' = ["K"%string]
    /\ forall ver, VersionManager.get_version "K" ver s' = None.
Proof.
  intros v data.
  exact (C5_delete_last_version_keeps_key
           [("K"%string, data)] "K" 1 data v eq_refl eq_refl eq_refl).
Defined.

(** C5 as stated fails: after [add_version("K", ...)] returned 1,
    [delete_version("K", 1)] leaves ["K"] among the keys, with an empty
    versions list. *)
Lemma C5_counterexample :
  let '(n, s, _) :=
    VersionManager.add_version "K" (Ref.blob "v1" "1") None
                               VersionManager.init Ref.clock0 in
  let '(deleted, s') := VersionManager.delete_version "K" n s in
  n = 1%Z /\ deleted = true
  /\ In "K"%string (VersionManager.get_all_keys s')
  /\ option_map VersionManager.versions (dict_get "K" s') = Some [].
Proof. cbn. repeat split; auto. Qed.



(** C7.  For every valid document, [from_dict] followed by [to_dict] gives
    the document back: keys in their order, each [current_version] as
    stored, versions in their order, timestamps and metadata unchanged;
    the clock is not read. *)
Theorem C7_document_round_trip (d : Document) (c : Clock) :
  valid_document d = true ->
  VersionManager.to_dict (fst (VersionManager.from_dict d c)) = d
  /\ snd (VersionManager.from_dict d c) = c.
Proof.
  unfold valid_document. intros H. apply andb_true_iff in H as [Hu Hv].
  apply unique_keys_NoDup in Hu.
  destruct (from_dict_items_round_trip d [] c Hu Hv) as (s & Hs & Hto).
  unfold VersionManager.from_dict. rewrite Hs. split; [exact Hto | reflexivity].
Qed.

Lemma C7_witness :
  valid_document Ref.document0 = true
  /\ VersionManager.to_dict
       (fst (VersionManager.from_dict Ref.document0 Ref.clock0))
     = Ref.document0
  /\ snd (VersionManager.from_dict Ref.document0 Ref.clock0) = Ref.clock0.
Proof.
  split; [reflexivity|].
  apply (C7_document_round_trip Ref.document0 Ref.clock0). reflexivity.
Defined.

(** ** Claims about vault.py *)



(** C2.  For every vault in which every stored version decrypts under the
    master key [K] and every 32-byte key [K'], [rotate(K')] succeeds and
    makes [K'] the master key; [get(k, v)] returns afterwards what it
    returned before, for every key and version; keys and current versions
    are the same; and the [j]-th stored version keeps its key and number
    while its blob becomes the one sealed under [K'] from its plaintext and
    the [j]-th nonce drawn during the rotation. *)
Theorem C2_rotation_preserves_secrets {ext : Externals} {laws : Lawful ext}
  (self : Vault) (K' : bytes) :
  len K' = 32%nat ->
  all_decrypt (master_key self) (version_manager self) = true ->
  exists self',
    MobileSecretsVault.rotate (Some K') self = (Ok (Some K'), self')
    /\ master_key self' = K'
    /\ (forall k ver,
           fst (MobileSecretsVault.get k ver self')
             = fst (MobileSecretsVault.get k ver self))
    /\ VersionManager.get_all_keys (version_manager self')
       = VersionManager.get_all_keys (version_manager self)
    /\ (forall k, current_version_of k (version_manager self')
                  = current_version_of k (version_manager self))
    /\ List.length (all_versions (version_manager self'))
       = List.length (all_versions (version_manager self))
    /\ (forall j k v,
           nth_error (all_versions (version_manager self)) j = Some (k, v) ->
           exists p,
             let fresh := draw (rng self) (consumed (rng self) + 12 * j) in
             CryptoEngine.decrypt (SecretVersion.encrypted_value v)
                                  (master_key self) = Ok p
             /\ nth_error (all_versions (version_manager self')) j
                = Some (k, SecretVersion.set_encrypted_value
                             v (sealed K' fresh p))
             /\ CryptoEngine.decrypt (sealed K' fresh p) K' = Ok p).
Proof.
  intros HK Hall.
  destruct (rotate_spec K' self) as (self' & Hrun & Hmk & Hvm & _ & _ & _).
  pose proof (rotate_key_related (master_key self) K' (version_manager self)
                                 (rng self) (stdout self)) as Hrel.
  destruct (rotate_key_all (master_key self) K' (version_manager self)
                           (rng self) (stdout self) HK Hall)
    as (s' & Hkey & Hlen & Hnth).
  rewrite Hkey in Hvm, Hrel. cbn [fst] in Hvm, Hrel. rewrite <- Hvm in *.
  exists self'. split; [|split; [exact Hmk|split; [|split; [|split; [|split]]]]].
  - rewrite Hrun. destruct K'; [discriminate | reflexivity].
  - intros k ver.
    destruct (get_spec k ver self') as (s1 & -> & _ & _).
    destruct (get_spec k ver self) as (s2 & -> & _ & _).
    cbn [fst]. rewrite Hmk.
    pose proof (get_version_related (master_key self) K' k ver _ _ Hrel) as Hg.
    destruct (VersionManager.get_version k ver (version_manager self))
      as [v|] eqn:Ev;
      destruct (VersionManager.get_version k ver (version_manager self'))
      as [v'|]; cbn in Hg; try contradiction; [|reflexivity].
    apply get_version_in in Ev.
    unfold all_decrypt in Hall.
    pose proof (proj1 (forallb_forall _ _) Hall (k, v) Ev) as Hv. cbn in Hv.
    destruct (decrypts_under_ok _ _ Hv) as [p Hp].
    destruct Hg as (_ & _ & _ & Hblob). rewrite Hp, HK in Hblob. cbn in Hblob.
    destruct Hblob as (fresh & Hfresh & ->).
    now rewrite Hp, (decrypt_sealed p K' fresh HK Hfresh
                       (decrypt_ok_encodable _ _ _ Hp)).
  - apply (related_keys _ _ _ _ Hrel).
  - apply (related_keys _ _ _ _ Hrel).
  - exact Hlen.
  - intros j k v Hj. destruct (Hnth j k v Hj) as (p & Hp & Hj').
    exists p. cbv zeta. split; [exact Hp|]. split; [exact Hj'|].
    apply decrypt_sealed;
      [exact HK | apply draw_length | exact (decrypt_ok_encodable _ _ _ Hp)].
Qed.

Lemma C2_witness :
  exists self',
    MobileSecretsVault.rotate (ext := Ref.externals) (Some Ref.key_b) Ref.vault_t
      = (Ok (Some Ref.key_b), self')
    /\ master_key self' = Ref.key_b
    /\ fst (MobileSecretsVault.get (ext := Ref.externals) "T" None self')
       = fst (MobileSecretsVault.get (ext := Ref.externals) "T" None Ref.vault_t).
Proof.
  destruct (C2_rotation_preserves_secrets (laws := ref_lawful)
              Ref.vault_t Ref.key_b eq_refl eq_refl)
    as (self' & Hrun & Hmk & Hget & _).
  exists self'. split; [exact Hrun|]. split; [exact Hmk | apply Hget].
Defined.




(** C4 as the code has it.  When the tag of the version [get] looks up
    does not verify, [get] raises a [VaultError] that wraps the
    authentication error; and of all the exceptions [get] can raise, only
    [SecretNotFoundError] reaches the caller unwrapped. *)
Theorem C4_get_wraps_authentication_error {ext : Externals}
  (self : Vault) (k : str) (ver : option Z) :
  (forall sv,
      VersionManager.get_version k ver (version_manager self) = Some sv ->
      CryptoEngine.decrypt (SecretVersion.encrypted_value sv) (master_key self)
        = Raise InvalidTag ->
      fst (MobileSecretsVault.get k ver self)
        = Raise (VaultError FailedToGetSecret InvalidTag))
  /\ (forall e,
         fst (MobileSecretsVault.get k ver self) = Raise e ->
         e = SecretNotFoundError k
         \/ exists cause, e = VaultError FailedToGetSecret cause).
Proof.
  destruct (get_spec k ver self) as (self' & Hget & _ & _). rewrite Hget.
  cbn [fst]. split.
  - intros sv -> ->. reflexivity.
  - intros e.
    destruct (VersionManager.get_version k ver (version_manager self)) as [sv|].
    + destruct (CryptoEngine.decrypt _ _) as [p|cause]; [discriminate|].
      intros [= <-]. right. now exists cause.
    + intros [= <-]. now left.
Qed.

(** C4 as stated fails: the vault written under one key and reopened under
    another opens, and [get] then raises a [VaultError], not the
    authentication error itself. *)
Lemma C4_counterexample :
  exists reopened,
    MobileSecretsVault.init (Some Ref.key_b) None None
        MobileSecretsVault.NoKeyFile (storage Ref.vault_t) true
        (rng Ref.vault_t) (clock Ref.vault_t)
      = Ok reopened
    /\ fst (MobileSecretsVault.get (ext := Ref.externals) "T" None reopened)
       = Raise (VaultError FailedToGetSecret InvalidTag)
    /\ kind_of (VaultError FailedToGetSecret InvalidTag) = GenericVaultError
    /\ GenericVaultError <> AuthenticationError.
Proof.
  eexists. split; [reflexivity|].
  split; [vm_compute; reflexivity|]. split; [reflexivity | discriminate].
Qed.

Lemma C4_witness :
  let reopened := MobileSecretsVault.set_master_key Ref.key_b Ref.vault_t in
  fst (MobileSecretsVault.get (ext := Ref.externals) "T" None reopened)
    = Raise (VaultError FailedToGetSecret InvalidTag).
Proof.
  intros reopened.
  refine (proj1 (C4_get_wraps_authentication_error (ext := Ref.externals)
                   reopened "T" None) _ _ _).
  - vm_compute. reflexivity.
  - vm_compute. reflexivity.
Defined.

(** C10 as the code has it.  The empty string is a key like any other, and
    what [set] can refuse is the value, never the key.  For every value [v]
    that encodes as UTF-8: on a vault just opened with a 32-byte key and no
    stored document, [set("", v)] returns 1, [get("")] returns [v] and [""]
    is among [list_keys()]; on any vault with a 32-byte key [set("", v)]
    succeeds and [get("")] then returns [v].  (With [auto_save] on, [set]
    writes the secrets file, on the reliable file system of
    [StorageBackend].)  On any vault [list_versions("")] returns without an
    error, and so does [delete("")] whenever it has nothing to write: when
    [""] is not stored it returns [False], when [auto_save] is off it
    returns whether [""] was stored. *)
Theorem C10_empty_key_accepted {ext : Externals} {laws : Lawful ext}
  (v : str) (metadata : option Metadata) :
  encodable v = true ->
  (forall key env_key key_file default_key_file file auto r c,
      len key = 32%nat ->
      StorageBackend.load file = Ok [] ->
      exists self self1 self2 keys,
        MobileSecretsVault.init (Some key) env_key key_file default_key_file
                                file auto r c = Ok self
        /\ MobileSecretsVault.set "" v metadata self = (Ok 1%Z, self1)
        /\ MobileSecretsVault.get "" None self1 = (Ok v, self2)
        /\ MobileSecretsVault.list_keys self2 = (Ok keys, self2)
        /\ In ""%string keys)
  /\ (forall self,
         len (master_key self) = 32%nat ->
         exists n self1 self2,
           MobileSecretsVault.set "" v metadata self = (Ok n, self1)
           /\ MobileSecretsVault.get "" None self1 = (Ok v, self2))
  /\ (forall self,
         dict_in "" (version_manager self) && auto_save self = false ->
         exists self',
           MobileSecretsVault.delete "" self
             = (Ok (dict_in "" (version_manager self)), self')
           /\ storage self' = storage self)
  /\ (forall self,
         exists infos self',
           MobileSecretsVault.list_versions "" self = (Ok infos, self')).
Proof.
  intros He. split; [|split; [|split]].
  - intros key env_key key_file default_key_file file auto r c HK Hload.
    destruct (init_fresh key env_key key_file default_key_file file auto r c
                         Hload) as (self & Hinit & Hmk & Hvm & _).
    assert (len (master_key self) = 32%nat) as HK' by now rewrite Hmk.
    destruct (set_get "" v metadata self HK' He)
      as (self1 & self2 & Hs & Hg & Hin).
    rewrite Hvm in Hs. cbn in Hs.
    exists self, self1, self2,
      (VersionManager.get_all_keys (version_manager self2)).
    repeat split; assumption.
  - intros self HK.
    destruct (set_get "" v metadata self HK He)
      as (self1 & self2 & Hs & Hg & _).
    eexists. exists self1, self2. split; [exact Hs | exact Hg].
  - intros self Hnw. apply delete_without_write, Hnw.
  - intros self. destruct (list_versions_ok "" self) as [self' H].
    eexists. exists self'. exact H.
Qed.

Lemma init_vault0 (key : bytes) :
  MobileSecretsVault.init (Some key) None None MobileSecretsVault.NoKeyFile
                          Ref.no_file true Ref.rng0 Ref.clock0
    = Ok (Ref.vault0 key).
Proof. reflexivity. Qed.

Lemma C10_witness :
  exists self self1 self2 keys,
    MobileSecretsVault.init (Some Ref.key_a) None None
        MobileSecretsVault.NoKeyFile Ref.no_file true Ref.rng0 Ref.clock0
      = Ok self
    /\ MobileSecretsVault.set (ext := Ref.externals) "" "v" None self
       = (Ok 1%Z, self1)
    /\ MobileSecretsVault.get (ext := Ref.externals) "" None self1
       = (Ok "v"%string, self2)
    /\ MobileSecretsVault.list_keys self2 = (Ok keys, self2)
    /\ In ""%string keys.
Proof.
  exact (proj1 (C10_empty_key_accepted (laws := ref_lawful) "v" None eq_refl)
               Ref.key_a None None MobileSecretsVault.NoKeyFile Ref.no_file
               true Ref.rng0 Ref.clock0 eq_refl eq_refl).
Defined.

(** C10 as stated fails: on the vault just opened with a 32-byte key and no
    stored document, [set("", '\ud800')] raises a [VaultError], and [""] is
    not among the keys afterwards. *)
Lemma C10_counterexample :
  MobileSecretsVault.init (Some Ref.key_a) None None
      MobileSecretsVault.NoKeyFile Ref.no_file true Ref.rng0 Ref.clock0
    = Ok (Ref.vault0 Ref.key_a)
  /\ fst (MobileSecretsVault.set (ext := Ref.externals)
                                 "" Ref.lone_surrogate None
                                 (Ref.vault0 Ref.key_a))
     = Raise (VaultError FailedToSetSecret UnicodeEncodeError)
  /\ VersionManager.get_all_keys
       (version_manager
          (snd (MobileSecretsVault.set (ext := Ref.externals)
                                       "" Ref.lone_surrogate None
                                       (Ref.vault0 Ref.key_a))))
     = [].
Proof. repeat split. Qed.

(** * Further properties *)

(** ** crypto.py *)

Lemma is_alphabet_char_of (n : N) :
  (n < 64)%N -> Base64.is_alphabet (Base64.char_of n) = true.
Proof.
  intros H. unfold Base64.is_alphabet.
  now rewrite (proj1 (B64.char_of_spec n H)).
Qed.

Lemma b2a_valid (data : bytes) : Base64.valid_groups (Base64.b2a data) = true.
Proof.
  revert data.
  fix IH 1. intros [|a [|b [|c rest]]].
  - reflexivity.
  - pose proof (to_N_lt a). cbn [Base64.b2a Base64.valid_groups].
    rewrite !is_alphabet_char_of by lia. reflexivity.
  - pose proof (to_N_lt a). pose proof (to_N_lt b).
    cbn [Base64.b2a Base64.valid_groups].
    rewrite !is_alphabet_char_of by lia. reflexivity.
  - pose proof (to_N_lt a). pose proof (to_N_lt b). pose proof (to_N_lt c).
    specialize (IH rest). cbn [Base64.b2a].
    destruct (Base64.b2a rest) as [|ch more] eqn:E;
      cbn [Base64.valid_groups];
      rewrite !is_alphabet_char_of by lia; [reflexivity|].
    exact IH.
Qed.

Lemma b64encode_valid (data : bytes) :
  Base64.valid_base64_text (Base64.b64encode data) = true.
Proof.
  unfold Base64.valid_base64_text, Base64.b64encode.
  rewrite list_ascii_of_string_of_list_ascii. apply b2a_valid.
Qed.

(** X1.  [string_to_key] undoes [key_to_string] for every key, whatever its
    length, and the text [key_to_string] produces is valid base64; so two
    keys with the same text are the same key. *)
Theorem X1_key_string_round_trip (key : bytes) :
  CryptoEngine.string_to_key (CryptoEngine.key_to_string key) = Some key
  /\ Base64.valid_base64_text (CryptoEngine.key_to_string key) = true
  /\ forall key',
       CryptoEngine.key_to_string key' = CryptoEngine.key_to_string key ->
       key' = key.
Proof.
  unfold CryptoEngine.string_to_key, CryptoEngine.key_to_string.
  split; [apply B64.b64decode_b64encode|]. split; [apply b64encode_valid|].
  intros key' H.
  pose proof (B64.b64decode_b64encode key') as H'. rewrite H in H'.
  rewrite B64.b64decode_b64encode in H'. now injection H'.
Qed.

(** X2.  [encrypt] goes one of three ways.  With a key that does not have
    32 bytes it fails before drawing any random byte.  With a 32-byte key
    and a plaintext that does not encode as UTF-8 it draws 12 bytes and
    raises [UnicodeEncodeError].  With a 32-byte key and a plaintext that
    encodes it draws 12 bytes and returns a dictionary with both fields,
    each valid base64 text: the nonce field decodes to the bytes drawn, the
    ciphertext field to 16 bytes more than the encoded plaintext. *)
Theorem X2_encrypt_shape {ext : Externals} {laws : Lawful ext}
  (plaintext : str) (key : bytes) (r : Rng) :
  (len key <> 32%nat ->
   CryptoEngine.encrypt plaintext key r
     = (Raise (ValueError (KeyMustBe32Bytes (len key))), r))
  /\ (len key = 32%nat -> utf8_encode plaintext = None ->
      CryptoEngine.encrypt plaintext key r
        = (Raise UnicodeEncodeError,
           {| entropy := entropy r; consumed := consumed r + 12 |}))
  /\ (forall data,
         len key = 32%nat -> utf8_encode plaintext = Some data ->
         exists c n sealed_bytes,
           CryptoEngine.encrypt plaintext key r
             = (Ok {| ciphertext := Some c; nonce := Some n |},
                {| entropy := entropy r; consumed := consumed r + 12 |})
           /\ Base64.valid_base64_text c = true
           /\ Base64.valid_base64_text n = true
           /\ Base64.b64decode n = Some (draw r (consumed r))
           /\ Base64.b64decode c = Some sealed_bytes
           /\ len sealed_bytes = (len data + 16)%nat).
Proof.
  split; [apply encrypt_bad_key|]. split.
  - intros Hk Hn. apply encrypt_not_encodable; [exact Hk|].
    unfold encodable. now rewrite Hn.
  - intros data Hk Hd.
    assert (encodable plaintext = true) as He
      by (unfold encodable; now rewrite Hd).
    rewrite (encrypt_ok plaintext key r Hk He). unfold sealed.
    rewrite (encodable_encode plaintext He) in Hd. injection Hd as <-.
    eexists. eexists. eexists. split; [reflexivity|].
    split; [apply b64encode_valid|]. split; [apply b64encode_valid|].
    split; [apply B64.b64decode_b64encode|].
    split; [apply B64.b64decode_b64encode|].
    apply gcm_seal_length; [exact Hk | apply draw_length].
Qed.

Lemma X2_witness :
  (exists c n sealed_bytes,
      CryptoEngine.encrypt (ext := Ref.externals) "hunter2" Ref.key_a Ref.rng0
        = (Ok {| ciphertext := Some c; nonce := Some n |},
           {| entropy := entropy Ref.rng0;
              consumed := consumed Ref.rng0 + 12 |})
      /\ Base64.valid_base64_text c = true
      /\ Base64.valid_base64_text n = true
      /\ Base64.b64decode n = Some (draw Ref.rng0 (consumed Ref.rng0))
      /\ Base64.b64decode c = Some sealed_bytes
      /\ len sealed_bytes = (len (list_byte_of_string "hunter2") + 16)%nat)
  /\ CryptoEngine.encrypt (ext := Ref.externals)
                          Ref.lone_surrogate Ref.key_a Ref.rng0
     = (Raise UnicodeEncodeError,
        {| entropy := entropy Ref.rng0; consumed := consumed Ref.rng0 + 12 |})
  /\ CryptoEngine.encrypt (ext := Ref.externals) "hunter2" [x00] Ref.rng0
     = (Raise (ValueError (KeyMustBe32Bytes (len [x00]))), Ref.rng0).
Proof.
  split; [|split].
  - exact (proj2 (proj2 (X2_encrypt_shape (laws := ref_lawful)
                           "hunter2" Ref.key_a Ref.rng0))
                 (list_byte_of_string "hunter2") eq_refl eq_refl).
  - exact (proj1 (proj2 (X2_encrypt_shape (laws := ref_lawful)
                           Ref.lone_surrogate Ref.key_a Ref.rng0))
                 eq_refl eq_refl).
  - refine (proj1 (X2_encrypt_shape (laws := ref_lawful)
                     "hunter2" [x00] Ref.rng0) _).
    discriminate.
Defined.

(** X3.  [generate_key] hands out 32 bytes, the next 32 of the random
    source; a secret that encodes as UTF-8, encrypted under the key it
    returns, decrypts to itself under that key. *)
Theorem X3_generated_key_usable {ext : Externals} {laws : Lawful ext}
  (plaintext : str) (r : Rng) :
  let key := fst (CryptoEngine.generate_key r) in
  let r1 := snd (CryptoEngine.generate_key r) in
  len key = 32%nat
  /\ consumed r1 = consumed r + 32
  /\ (encodable plaintext = true ->
      exists blob r2,
        CryptoEngine.encrypt plaintext key r1 = (Ok blob, r2)
        /\ CryptoEngine.decrypt blob key = Ok plaintext).
Proof.
  cbv zeta.
  assert (len (fst (CryptoEngine.generate_key r)) = 32%nat) as Hk.
  { unfold CryptoEngine.generate_key, urandom, len. cbn [fst].
    now rewrite length_map, length_seq. }
  split; [exact Hk|]. split; [reflexivity|].
  intros He. eexists. eexists. split.
  - apply encrypt_ok; [exact Hk | exact He].
  - apply decrypt_sealed; [exact Hk | apply draw_length | exact He].
Qed.

Lemma X3_witness :
  len (fst (CryptoEngine.generate_key Ref.rng0)) = 32%nat
  /\ exists blob r2,
       CryptoEngine.encrypt (ext := Ref.externals) "s3cret"
         (fst (CryptoEngine.generate_key Ref.rng0))
         (snd (CryptoEngine.generate_key Ref.rng0)) = (Ok blob, r2)
       /\ CryptoEngine.decrypt (ext := Ref.externals) blob
            (fst (CryptoEngine.generate_key Ref.rng0)) = Ok "s3cret"%string.
Proof.
  destruct (X3_generated_key_usable (laws := ref_lawful) "s3cret" Ref.rng0)
    as (H1 & _ & H3).
  split; [exact H1 | exact (H3 eq_refl)].
Defined.

(** ** versioning.py *)

Section MoreDictFacts.
Context {V : Type}.
Implicit Types (d : dict V) (k : str) (v : V).

Lemma dict_get_in k v d : dict_get k d = Some v -> In (k, v) d.
Proof.
  induction d as [|[k0 v0] d IH]; cbn; [discriminate|].
  destruct (String.eqb_spec k0 k) as [->|H0].
  - intros [= ->]. now left.
  - intros H. right. now apply IH.
Qed.

Lemma dict_get_none k d : ~ In k (dict_keys d) -> dict_get k d = None.
Proof.
  induction d as [|[k0 v0] d IH]; cbn; [reflexivity|].
  intros H. destruct (String.eqb_spec k0 k) as [->|H0].
  - exfalso. apply H. now left.
  - apply IH. intros Hin. apply H. now right.
Qed.

Lemma dict_get_some_in_keys k d :
  In k (dict_keys d) -> exists v, dict_get k d = Some v.
Proof.
  induction d as [|[k0 v0] d IH]; cbn; [contradiction|].
  intros H. destruct (String.eqb_spec k0 k) as [->|H0].
  - now exists v0.
  - destruct H as [H|H]; [contradiction | now apply IH].
Qed.

Lemma dict_keys_del_subset k k' d :
  In k' (dict_keys (dict_del k d)) -> In k' (dict_keys d).
Proof.
  induction d as [|[k0 v0] d IH]; cbn; [contradiction|].
  destruct (String.eqb_spec k0 k) as [->|H0]; cbn.
  - intros H. now right.
  - intros [H|H]; [now left | right; now apply IH].
Qed.

Lemma dict_del_NoDup k d : NoDup (dict_keys d) -> NoDup (dict_keys (dict_del k d)).
Proof.
  induction d as [|[k0 v0] d IH]; cbn; [intros; constructor|].
  intros H. inversion H as [|? ? Hnin Hnd]; subst.
  destruct (String.eqb_spec k0 k) as [->|H0]; cbn; [exact Hnd|].
  constructor; [|now apply IH].
  intros Hin. apply Hnin. now apply (dict_keys_del_subset k).
Qed.

Lemma dict_del_not_in k d :
  NoDup (dict_keys d) -> ~ In k (dict_keys (dict_del k d)).
Proof.
  induction d as [|[k0 v0] d IH]; cbn; [intros _ []|].
  intros H. inversion H as [|? ? Hnin Hnd]; subst.
  destruct (String.eqb_spec k0 k) as [->|H0]; cbn; [exact Hnin|].
  intros [Heq|Hin]; [contradiction | now apply (IH Hnd)].
Qed.

Lemma dict_set_NoDup k v d :
  NoDup (dict_keys d) -> NoDup (dict_keys (dict_set k v d)).
Proof.
  intros H. destruct (dict_get k d) as [v0|] eqn:E.
  - rewrite dict_keys_set_present; [exact H|]. unfold dict_in. now rewrite E.
  - assert (~ In k (dict_keys d)) as Hnin.
    { intros Hin. apply dict_get_some_in_keys in Hin as [v1 Hv1]. congruence. }
    rewrite (dict_set_absent k v d Hnin). unfold dict_keys.
    rewrite map_app. cbn. apply NoDup_app; [exact H | repeat constructor; intros [] |].
    intros x Hx [<-|[]]. contradiction.
Qed.

Lemma dict_set_forallb (f : V -> bool) k v d :
  forallb (fun item : str * V => f (snd item)) d = true ->
  f v = true ->
  forallb (fun item : str * V => f (snd item)) (dict_set k v d) = true.
Proof.
  intros Hd Hv. induction d as [|[k0 v0] d IH]; cbn.
  - now rewrite Hv.
  - cbn in Hd. apply andb_true_iff in Hd as [H0 Hd].
    destruct (String.eqb k0 k); cbn.
    + now rewrite Hv, Hd.
    + now rewrite H0, IH.
Qed.

Lemma dict_del_forallb (f : V -> bool) k d :
  forallb (fun item : str * V => f (snd item)) d = true ->
  forallb (fun item : str * V => f (snd item)) (dict_del k d) = true.
Proof.
  induction d as [|[k0 v0] d IH]; cbn; [reflexivity|].
  intros Hd. apply andb_true_iff in Hd as [H0 Hd].
  destruct (String.eqb k0 k); cbn; [exact Hd|]. now rewrite H0, IH.
Qed.

Lemma dict_get_forallb (f : V -> bool) k v d :
  forallb (fun item : str * V => f (snd item)) d = true ->
  dict_get k d = Some v -> f v = true.
Proof.
  intros Hd Hget. apply dict_get_in in Hget.
  exact (proj1 (forallb_forall _ _) Hd (k, v) Hget).
Qed.

Lemma dict_set_same k v d : dict_get k d = Some v -> dict_set k v d = d.
Proof.
  induction d as [|[k0 v0] d IH]; cbn; [discriminate|].
  destruct (String.eqb_spec k0 k) as [->|H0].
  - now intros [= ->].
  - intros H. now rewrite IH.
Qed.

End MoreDictFacts.

Section Ascending.
Import VersionManager.

Lemma ascending_weaken (low low' : Z) (ns : list Z) :
  (low' <= low)%Z -> ascending_from low ns = true ->
  ascending_from low' ns = true.
Proof.
  destruct ns as [|n ns]; cbn; [reflexivity|].
  intros Hle H. apply andb_true_iff in H as [Hn Hns].
  rewrite Hns, andb_true_r. apply Z.ltb_lt. apply Z.ltb_lt in Hn. lia.
Qed.

Lemma ascending_snoc (low cv : Z) (vs : list SecretVersion.t)
  (new : SecretVersion.t) :
  (low <= cv)%Z ->
  SecretVersion.version new = (cv + 1)%Z ->
  ascending_from low (map SecretVersion.version vs) = true ->
  forallb (fun v => (SecretVersion.version v <=? cv)%Z) vs = true ->
  ascending_from low (map SecretVersion.version (vs ++ [new])) = true.
Proof.
  intros Hlow Hnew. revert low Hlow.
  induction vs as [|v vs IH]; intros low Hlow Hasc Hle; cbn.
  - rewrite Hnew, andb_true_r. apply Z.ltb_lt. lia.
  - cbn in Hasc, Hle. apply andb_true_iff in Hasc as [Hv Hasc].
    apply andb_true_iff in Hle as [Hvle Hle]. rewrite Hv. cbn.
    apply IH; [apply Z.leb_le in Hvle; lia | exact Hasc | exact Hle].
Qed.

Lemma ascending_filter (p : SecretVersion.t -> bool) (low : Z)
  (vs : list SecretVersion.t) :
  ascending_from low (map SecretVersion.version vs) = true ->
  ascending_from low (map SecretVersion.version (filter p vs)) = true.
Proof.
  revert low. induction vs as [|v vs IH]; intros low; cbn; [reflexivity|].
  intros H. apply andb_true_iff in H as [Hv Hasc].
  destruct (p v); cbn.
  - rewrite Hv. cbn. now apply IH.
  - apply IH. apply (ascending_weaken (SecretVersion.version v));
      [apply Z.ltb_lt in Hv; lia | exact Hasc].
Qed.

Lemma ascending_bound (low : Z) (vs : list SecretVersion.t)
  (w : SecretVersion.t) :
  ascending_from low (map SecretVersion.version vs) = true ->
  In w vs -> (low < SecretVersion.version w)%Z.
Proof.
  revert low. induction vs as [|v vs IH]; intros low; cbn; [intros _ []|].
  intros H. apply andb_true_iff in H as [Hv Hasc]. apply Z.ltb_lt in Hv.
  intros [<-|Hin]; [exact Hv|].
  specialize (IH _ Hasc Hin). lia.
Qed.

(** In an ascending list the last version has the highest number. *)
Lemma ascending_last (low : Z) (v : SecretVersion.t)
  (vs : list SecretVersion.t) (d w : SecretVersion.t) :
  ascending_from low (map SecretVersion.version (v :: vs)) = true ->
  In w (v :: vs) ->
  (SecretVersion.version w <= SecretVersion.version (last (v :: vs) d))%Z.
Proof.
  revert low v w. induction vs as [|v2 vs IH]; intros low v w Hasc Hin.
  - destruct Hin as [Heq|[]]. subst w. cbn. lia.
  - cbn [map ascending_from] in Hasc.
    apply andb_true_iff in Hasc as [Hv Hasc].
    change (last (v :: v2 :: vs) d) with (last (v2 :: vs) d).
    destruct Hin as [Heq|Hin].
    + subst w.
      assert (SecretVersion.version v < SecretVersion.version v2)%Z as Hlt.
      { apply andb_true_iff in Hasc as [H2 _]. now apply Z.ltb_lt. }
      pose proof (IH (SecretVersion.version v) v2 v2 Hasc (or_introl eq_refl)).
      lia.
    + exact (IH (SecretVersion.version v) v2 w Hasc Hin).
Qed.

Lemma filter_forallb {A : Type} (p f : A -> bool) (l : list A) :
  forallb f l = true -> forallb f (filter p l) = true.
Proof.
  induction l as [|x l IH]; cbn; [reflexivity|].
  intros H. apply andb_true_iff in H as [Hx Hl].
  destruct (p x); cbn; [now rewrite Hx, IH | now apply IH].
Qed.

Lemma utcnow_z_stamp (c : Clock) : exists a s, fst (utcnow_z c) = String a s.
Proof.
  unfold utcnow_z. cbn. destruct (isoformat c (reads c)) as [|a s]; cbn;
    eexists; eexists; reflexivity.
Qed.

End Ascending.

Section WellFormed.
Import VersionManager.

Lemma well_formed_parts (s : VersionManager.t) :
  well_formed s = true <->
  NoDup (dict_keys s)
  /\ forallb (fun item : str * KeyData => entry_ok (snd item)) s = true.
Proof.
  unfold well_formed. rewrite andb_true_iff, unique_keys_NoDup. reflexivity.
Qed.

Lemma entry_ok_parts (data : KeyData) :
  entry_ok data = true <->
  (0 <= current_version data)%Z
  /\ ascending_from 0 (map SecretVersion.version (versions data)) = true
  /\ forallb (fun v => (SecretVersion.version v <=? current_version data)%Z)
             (versions data) = true
  /\ forallb stamped (versions data) = true.
Proof.
  unfold entry_ok. rewrite !andb_true_iff, Z.leb_le. tauto.
Qed.

Lemma well_formed_entry (s : VersionManager.t) (key : str) (data : KeyData) :
  well_formed s = true -> dict_get key s = Some data -> entry_ok data = true.
Proof.
  intros Hwf Hget. apply well_formed_parts in Hwf as [_ Hall].
  exact (dict_get_forallb entry_ok key data s Hall Hget).
Qed.

Lemma forallb_le_mono (cv cv' : Z) (vs : list SecretVersion.t) :
  (cv <= cv')%Z ->
  forallb (fun v => (SecretVersion.version v <=? cv)%Z) vs = true ->
  forallb (fun v => (SecretVersion.version v <=? cv')%Z) vs = true.
Proof.
  intros Hle H. apply forallb_forall. intros v Hv.
  pose proof (proj1 (forallb_forall _ _) H v Hv) as Hv'.
  apply Z.leb_le. apply Z.leb_le in Hv'. lia.
Qed.

Lemma add_version_well_formed (key : str) (blob : EncryptedData)
  (md : option Metadata) (s : VersionManager.t) (c : Clock) :
  well_formed s = true ->
  well_formed (snd (fst (add_version key blob md s c))) = true.
Proof.
  intros Hwf. pose proof Hwf as Hwf0.
  apply well_formed_parts in Hwf as [Hnd Hall].
  unfold add_version, SecretVersion.init.
  destruct (utcnow_z_stamp c) as (a & ts & Hts).
  destruct (utcnow_z c) as [now c']. cbn [fst] in Hts. subst now. cbn [fst snd].
  apply well_formed_parts. split; [now apply dict_set_NoDup|].
  apply dict_set_forallb; [exact Hall|].
  assert (entry_ok match dict_get key s with
                   | Some data => data
                   | None => {| versions := []; current_version := 0 |}
                   end = true) as Hdata.
  { destruct (dict_get key s) as [data|] eqn:E;
      [exact (well_formed_entry s key data Hwf0 E) | reflexivity]. }
  set (data := match dict_get key s with
               | Some data => data
               | None => {| versions := []; current_version := 0 |}
               end) in *.
  apply entry_ok_parts in Hdata as (Hcv & Hasc & Hle & Hst).
  apply entry_ok_parts. cbn [versions current_version].
  split; [lia|]. split; [|split].
  - apply (ascending_snoc 0 (current_version data)); auto.
  - rewrite forallb_app. cbn.
    rewrite (forallb_le_mono (current_version data)); [|lia|exact Hle].
    cbn. rewrite andb_true_r. apply Z.leb_le. lia.
  - rewrite forallb_app, Hst. reflexivity.
Qed.

Lemma delete_version_well_formed (key : str) (version : Z)
  (s : VersionManager.t) :
  well_formed s = true ->
  well_formed (snd (delete_version key version s)) = true.
Proof.
  intros Hwf. unfold delete_version.
  destruct (dict_get key s) as [data|] eqn:E; [|exact Hwf]. cbn [snd].
  pose proof (well_formed_entry s key data Hwf E) as Hdata.
  apply well_formed_parts in Hwf as [Hnd Hall].
  apply well_formed_parts. split; [now apply dict_set_NoDup|].
  apply dict_set_forallb; [exact Hall|].
  apply entry_ok_parts in Hdata as (Hcv & Hasc & Hle & Hst).
  apply entry_ok_parts. cbn [versions current_version].
  split; [exact Hcv|]. split; [now apply ascending_filter|].
  split; now apply filter_forallb.
Qed.

Lemma delete_key_well_formed (key : str) (s : VersionManager.t) :
  well_formed s = true -> well_formed (snd (delete_key key s)) = true.
Proof.
  intros Hwf. unfold delete_key. destruct (dict_in key s); [|exact Hwf].
  cbn [snd]. apply well_formed_parts in Hwf as [Hnd Hall].
  apply well_formed_parts. split; [now apply dict_del_NoDup|].
  now apply dict_del_forallb.
Qed.

End WellFormed.

Section RotationKeepsShape.
Context {ext : Externals}.
Import VersionManager.

Lemma related_numbers (old_key new_key : bytes)
  (vs vs' : list SecretVersion.t) :
  Forall2 (rotated_version old_key new_key) vs vs' ->
  map SecretVersion.version vs' = map SecretVersion.version vs
  /\ map SecretVersion.timestamp vs' = map SecretVersion.timestamp vs
  /\ map SecretVersion.metadata vs' = map SecretVersion.metadata vs.
Proof.
  induction 1 as [|v v' vs vs' (Hn & Ht & Hm & _) _ (IHn & IHt & IHm)]; cbn.
  - repeat split.
  - now rewrite Hn, Ht, Hm, IHn, IHt, IHm.
Qed.

Lemma related_entry_ok (old_key new_key : bytes)
  (item item' : str * KeyData) :
  rotated_entry old_key new_key item item' ->
  entry_ok (snd item) = true -> entry_ok (snd item') = true.
Proof.
  intros (_ & Hcv & Hvs) Hok.
  destruct (related_numbers _ _ _ _ Hvs) as (Hn & Ht & _).
  apply entry_ok_parts in Hok as (H0 & Hasc & Hle & Hst).
  apply entry_ok_parts. rewrite Hcv, Hn.
  split; [exact H0|]. split; [exact Hasc|]. split.
  - clear Hasc Hst Hn Ht. induction Hvs as [|v v' vs vs' (Hv & _) _ IH]; cbn;
      [reflexivity|].
    cbn in Hle. apply andb_true_iff in Hle as [Hv1 Hle].
    now rewrite Hv, Hv1, IH.
  - clear Hasc Hle Hn Ht. induction Hvs as [|v v' vs vs' (_ & Hv & _) _ IH]; cbn;
      [reflexivity|].
    cbn in Hst. apply andb_true_iff in Hst as [Hv1 Hst].
    unfold stamped in *. now rewrite Hv, Hv1, IH.
Qed.

Lemma rotate_key_well_formed (old_key new_key : bytes) (s : VersionManager.t)
  (r : Rng) (out : list Printed) :
  well_formed s = true ->
  well_formed (fst (fst (rotate_key old_key new_key s r out))) = true.
Proof.
  intros Hwf. apply well_formed_parts in Hwf as [Hnd Hall].
  pose proof (rotate_key_related old_key new_key s r out) as Hrel.
  apply well_formed_parts. split.
  - destruct (related_keys _ _ _ _ Hrel) as [Hk _].
    unfold get_all_keys in Hk. now rewrite Hk.
  - revert Hall. clear Hnd.
    induction Hrel as [|item item' s0 s0' Hitem _ IH]; cbn; [reflexivity|].
    intros H. apply andb_true_iff in H as [H1 H2].
    now rewrite (related_entry_ok _ _ _ _ Hitem H1), IH.
Qed.

End RotationKeepsShape.

(** X5.  A store built through the interface keeps its shape.  The empty
    store has it, and [add_version], [delete_version], [delete_key] and
    [rotate_key] keep it: a key occurs once; for each key the version
    numbers are at least 1, strictly increasing along the list and at most
    [current_version]; every version has a timestamp. *)
Theorem X5_store_shape_is_kept {ext : Externals} :
  well_formed VersionManager.init = true
  /\ forall s,
       well_formed s = true ->
       (forall key blob md c,
           well_formed
             (snd (fst (VersionManager.add_version key blob md s c))) = true)
       /\ (forall key version,
              well_formed (snd (VersionManager.delete_version key version s))
                = true)
       /\ (forall key,
              well_formed (snd (VersionManager.delete_key key s)) = true)
       /\ (forall old_key new_key r out,
              well_formed
                (fst (fst (VersionManager.rotate_key old_key new_key s r out)))
                = true).
Proof.
  split; [reflexivity|]. intros s Hwf. repeat split; intros.
  - now apply add_version_well_formed.
  - now apply delete_version_well_formed.
  - now apply delete_key_well_formed.
  - now apply rotate_key_well_formed.
Qed.

Lemma X5_witness :
  well_formed (version_manager Ref.vault_t) = true
  /\ well_formed
       (snd (VersionManager.delete_version "T" 1
               (snd (fst (VersionManager.add_version
                            "T" (Ref.blob "v2" "2") None
                            (version_manager Ref.vault_t) Ref.clock0)))))
     = true.
Proof.
  split; [reflexivity|].
  apply (proj2 (X5_store_shape_is_kept (ext := Ref.externals))).
  apply (proj2 (X5_store_shape_is_kept (ext := Ref.externals))).
  reflexivity.
Defined.

Section Lookups.
Import VersionManager.

Lemma find_number (n : Z) (vs : list SecretVersion.t) (w : SecretVersion.t) :
  find (fun v => (SecretVersion.version v =? n)%Z) vs = Some w ->
  In w vs /\ SecretVersion.version w = n.
Proof.
  intros H. apply find_some in H as [Hin Heq]. split; [exact Hin|].
  now apply Z.eqb_eq.
Qed.

Lemma find_snoc_other (n : Z) (vs : list SecretVersion.t)
  (new : SecretVersion.t) :
  SecretVersion.version new <> n ->
  find (fun v => (SecretVersion.version v =? n)%Z) (vs ++ [new])
    = find (fun v => (SecretVersion.version v =? n)%Z) vs.
Proof.
  intros Hne. induction vs as [|v vs IH]; cbn.
  - destruct (Z.eqb_spec (SecretVersion.version new) n);
      [contradiction | reflexivity].
  - destruct (SecretVersion.version v =? n)%Z; [reflexivity | exact IH].
Qed.

Lemma find_snoc_new (cv : Z) (vs : list SecretVersion.t)
  (new : SecretVersion.t) :
  forallb (fun v => (SecretVersion.version v <=? cv)%Z) vs = true ->
  (cv < SecretVersion.version new)%Z ->
  find (fun v => (SecretVersion.version v =? SecretVersion.version new)%Z)
       (vs ++ [new]) = Some new.
Proof.
  intros Hle Hnew. induction vs as [|v vs IH]; cbn.
  - now rewrite Z.eqb_refl.
  - cbn in Hle. apply andb_true_iff in Hle as [Hv Hle]. apply Z.leb_le in Hv.
    destruct (Z.eqb_spec (SecretVersion.version v) (SecretVersion.version new));
      [lia | now apply IH].
Qed.

Lemma find_filter_other (n m : Z) (vs : list SecretVersion.t) :
  m <> n ->
  find (fun v => (SecretVersion.version v =? m)%Z)
       (filter (fun v => negb (SecretVersion.version v =? n)%Z) vs)
    = find (fun v => (SecretVersion.version v =? m)%Z) vs.
Proof.
  intros Hne. induction vs as [|v vs IH]; cbn; [reflexivity|].
  destruct (Z.eqb_spec (SecretVersion.version v) n) as [Hn|Hn]; cbn.
  - destruct (Z.eqb_spec (SecretVersion.version v) m); [lia | exact IH].
  - destruct (SecretVersion.version v =? m)%Z; [reflexivity | exact IH].
Qed.

Lemma find_filter_same (n : Z) (vs : list SecretVersion.t) :
  find (fun v => (SecretVersion.version v =? n)%Z)
       (filter (fun v => negb (SecretVersion.version v =? n)%Z) vs) = None.
Proof.
  induction vs as [|v vs IH]; cbn; [reflexivity|].
  destruct (SecretVersion.version v =? n)%Z eqn:E; cbn; [exact IH|].
  now rewrite E.
Qed.

Lemma filter_length_lt (n : Z) (vs : list SecretVersion.t) :
  (List.length (filter (fun v => negb (SecretVersion.version v =? n)%Z) vs)
   <? List.length vs)%nat
    = existsb (fun v => (SecretVersion.version v =? n)%Z) vs.
Proof.
  assert (forall l : list SecretVersion.t,
             (List.length (filter (fun v => negb (SecretVersion.version v =? n)%Z) l)
              <= List.length l)%nat) as Hle.
  { intros l. induction l as [|x l IHl]; cbn; [lia|].
    destruct (negb _); cbn; lia. }
  induction vs as [|v vs IH]; cbn; [reflexivity|].
  destruct (SecretVersion.version v =? n)%Z; cbn.
  - apply Nat.leb_le. apply Hle.
  - exact IH.
Qed.

Lemma get_version_by_number (key : str) (n : Z) (s : VersionManager.t) :
  get_version key (Some n) s =
    match dict_get key s with
    | Some data => find (fun v => (SecretVersion.version v =? n)%Z)
                        (versions data)
    | None => None
    end.
Proof.
  unfold get_version. destruct (dict_get key s) as [data|]; [|reflexivity].
  now destruct (versions data).
Qed.

Lemma get_version_other_key (key' : str) (ver : option Z)
  (s s' : VersionManager.t) :
  dict_get key' s' = dict_get key' s ->
  get_version key' ver s' = get_version key' ver s.
Proof. unfold get_version. now intros ->. Qed.

End Lookups.

(** X6.  In a well-formed store, [get_version(key)] without a number
    returns the version with the highest number among the stored versions
    of the key, and that number is at most [current_version]; a version
    found by number carries that number; and [list_versions(key)] lists
    strictly increasing numbers. *)
Theorem X6_latest_is_highest (s : VersionManager.t) (key : str)
  (latest : SecretVersion.t) :
  well_formed s = true ->
  VersionManager.get_version key None s = Some latest ->
  (forall n w,
      VersionManager.get_version key (Some n) s = Some w ->
      SecretVersion.version w = n
      /\ (n <= SecretVersion.version latest)%Z)
  /\ (exists cv,
         current_version_of key s = Some cv
         /\ (1 <= SecretVersion.version latest <= cv)%Z)
  /\ ascending_from 0 (map VersionManager.info_version
                           (VersionManager.list_versions key s)) = true.
Proof.
  intros Hwf Hlatest.
  unfold VersionManager.get_version in Hlatest.
  unfold current_version_of, VersionManager.list_versions.
  destruct (dict_get key s) as [data|] eqn:E; [|discriminate].
  pose proof (well_formed_entry s key data Hwf E) as Hok.
  apply entry_ok_parts in Hok as (Hcv & Hasc & Hle & _).
  destruct (VersionManager.versions data) as [|first rest] eqn:Evs;
    [discriminate|].
  injection Hlatest as <-.
  split; [|split].
  - intros n w Hw. rewrite get_version_by_number, E, Evs in Hw.
    apply find_number in Hw as [Hin Hn]. split; [exact Hn|]. subst n.
    now apply (ascending_last 0).
  - exists (VersionManager.current_version data). split; [reflexivity|].
    pose proof (last_in rest first first) as Hin.
    pose proof (ascending_bound 0 _ _ Hasc Hin).
    pose proof (proj1 (forallb_forall _ _) Hle _ Hin) as Hb.
    apply Z.leb_le in Hb.
    change (1 <= SecretVersion.version (last (first :: rest) first)
            <= VersionManager.current_version data)%Z.
    lia.
  - rewrite map_map. cbn [VersionManager.info_version]. exact Hasc.
Qed.

Lemma X6_witness :
  let s := History.manager
             (History.run [History.Add "P" (Ref.blob "1" "a") None;
                           History.Add "P" (Ref.blob "2" "b") None;
                           History.Add "P" (Ref.blob "3" "c") None;
                           History.DeleteVersion "P" 3]
                          (History.start Ref.clock0)) in
  exists latest,
    VersionManager.get_version "P" None s = Some latest
    /\ SecretVersion.version latest = 2%Z
    /\ exists cv, current_version_of "P" s = Some cv
                  /\ (1 <= SecretVersion.version latest <= cv)%Z.
Proof.
  intros s. eexists. split; [reflexivity|]. split; [reflexivity|].
  exact (proj1 (proj2 (X6_latest_is_highest s "P" _ eq_refl eq_refl))).
Defined.

(** X7.  In a well-formed store, the number [add_version] returns finds, by
    [get_version(key, number)], the version just added, with the blob and
    the metadata given (an empty mapping when none was given); every other
    number of the key finds what it found before, and the other keys are
    untouched. *)
Theorem X7_add_then_get_by_number (s : VersionManager.t) (key : str)
  (blob : EncryptedData) (md : option Metadata) (c : Clock) :
  well_formed s = true ->
  let n := fst (fst (VersionManager.add_version key blob md s c)) in
  let s' := snd (fst (VersionManager.add_version key blob md s c)) in
  (exists sv,
      VersionManager.get_version key (Some n) s' = Some sv
      /\ VersionManager.get_version key None s' = Some sv
      /\ SecretVersion.version sv = n
      /\ SecretVersion.encrypted_value sv = blob
      /\ SecretVersion.metadata sv = match md with Some m => m | None => [] end)
  /\ (forall m, m <> n ->
                VersionManager.get_version key (Some m) s'
                  = VersionManager.get_version key (Some m) s)
  /\ (forall key' ver, key' <> key ->
                       VersionManager.get_version key' ver s'
                         = VersionManager.get_version key' ver s).
Proof.
  intros Hwf n s'.
  destruct (add_version_state key blob md s c) as [ts Hst].
  pose proof (add_version_result key blob md s c) as Hres.
  pose proof (fun k' => add_version_other key k' blob md s c) as Hoth.
  fold n in Hres. fold s' in Hoth.
  destruct (VersionManager.add_version key blob md s c) as [[n0 s0] c0].
  cbn [fst snd] in n, s', Hst. subst n s'. cbv zeta in Hst.
  assert (forallb (fun v => (SecretVersion.version v <=? n0 - 1)%Z)
                  match dict_get key s with
                  | Some data => VersionManager.versions data
                  | None => []
                  end = true) as Hle.
  { unfold current_version_of in Hres.
    destruct (dict_get key s) as [data|] eqn:E; [|reflexivity].
    pose proof (well_formed_entry s key data Hwf E) as Hok.
    apply entry_ok_parts in Hok as (_ & _ & Hle & _).
    cbn in Hres. replace (n0 - 1)%Z with (VersionManager.current_version data)
      by lia. exact Hle. }
  set (new := {| SecretVersion.version := n0;
                 SecretVersion.encrypted_value := blob;
                 SecretVersion.timestamp := ts;
                 SecretVersion.metadata :=
                   match md with Some m => m | None => [] end |}) in *.
  split; [|split].
  - exists new. split; [|split; [|split; [|split]]].
    + rewrite get_version_by_number, Hst. cbn [VersionManager.versions].
      refine (find_snoc_new (n0 - 1) _ new Hle _). cbn. lia.
    + unfold VersionManager.get_version. rewrite Hst.
      cbn [VersionManager.versions].
      destruct (_ ++ _) as [|first rest] eqn:Eapp.
      * now destruct (match dict_get key s with
                      | Some data => VersionManager.versions data
                      | None => []
                      end).
      * rewrite <- Eapp. now rewrite last_last.
    + reflexivity.
    + reflexivity.
    + reflexivity.
  - intros m Hm. rewrite !get_version_by_number, Hst.
    cbn [VersionManager.versions].
    rewrite find_snoc_other by (cbn; congruence).
    now destruct (dict_get key s).
  - intros key' ver Hne. apply get_version_other_key. apply Hoth. congruence.
Qed.

Lemma X7_witness :
  exists sv,
    VersionManager.get_version "T" (Some 2%Z)
      (snd (fst (VersionManager.add_version
                   "T" (Ref.blob "v2" "2") None
                   (version_manager Ref.vault_t) Ref.clock0))) = Some sv
    /\ SecretVersion.encrypted_value sv = Ref.blob "v2" "2".
Proof.
  destruct (proj1 (X7_add_then_get_by_number
                     (version_manager Ref.vault_t) "T" (Ref.blob "v2" "2")
                     None Ref.clock0 eq_refl))
    as (sv & H1 & _ & _ & H4 & _).
  exists sv. split; [exact H1 | exact H4].
Defined.

(** X8.  [delete_version(key, n)] returns [True] exactly when the key has a
    stored version numbered [n] (so [False] for an unknown key).
    Afterwards number [n] finds nothing, every other number of the key
    finds what it found before, the other keys and the list of keys are
    untouched; and when it returns [False] the store is unchanged. *)
Theorem X8_delete_version_effect (s : VersionManager.t) (key : str) (n : Z) :
  let deleted := fst (VersionManager.delete_version key n s) in
  let s' := snd (VersionManager.delete_version key n s) in
  (deleted = true <->
   exists w, VersionManager.get_version key (Some n) s = Some w)
  /\ VersionManager.get_version key (Some n) s' = None
  /\ (forall m, m <> n ->
                VersionManager.get_version key (Some m) s'
                  = VersionManager.get_version key (Some m) s)
  /\ (forall key' ver, key' <> key ->
                       VersionManager.get_version key' ver s'
                         = VersionManager.get_version key' ver s)
  /\ VersionManager.get_all_keys s' = VersionManager.get_all_keys s
  /\ (deleted = false -> s' = s).
Proof.
  cbv zeta. unfold VersionManager.delete_version.
  destruct (dict_get key s) as [data|] eqn:E; cbn [fst snd].
  - rewrite filter_length_lt.
    split; [|split; [|split; [|split; [|split]]]].
    + rewrite get_version_by_number, E. split.
      * intros H. apply existsb_exists in H as (w & Hin & Hw).
        destruct (find _ (VersionManager.versions data)) as [w'|] eqn:Ef;
          [now exists w'|].
        exfalso. pose proof (find_none _ _ Ef w Hin) as Hnone. cbn in Hnone.
        congruence.
      * intros [w Hw]. apply find_some in Hw as [Hin Hw].
        apply existsb_exists. now exists w.
    + rewrite get_version_by_number, dict_get_set_eq.
      cbn [VersionManager.versions]. apply find_filter_same.
    + intros m Hm. rewrite !get_version_by_number, dict_get_set_eq, E.
      cbn [VersionManager.versions]. now apply find_filter_other.
    + intros key' ver Hne. apply get_version_other_key.
      apply dict_get_set_ne. congruence.
    + apply dict_keys_set_present. unfold dict_in. now rewrite E.
    + intros Hex. apply dict_set_same. rewrite E. f_equal.
      destruct data as [vs cv]. cbn in *. f_equal.
      clear E. induction vs as [|v vs IH]; cbn; [reflexivity|].
      cbn in Hex. apply orb_false_iff in Hex as [Hv Hvs].
      rewrite Hv. cbn. f_equal. now apply IH.
  - split; [|split; [|split; [|split; [|split]]]]; try reflexivity.
    + split; [discriminate|]. intros [w Hw].
      rewrite get_version_by_number, E in Hw. discriminate.
    + now rewrite get_version_by_number, E.
Qed.

(** X9.  [delete_key(key)] returns [True] exactly when the key has an
    entry, and leaves the other keys as they were.  In a store in which a
    key occurs once, the key is gone afterwards: it is not among
    [get_all_keys()], [get_version] and [list_versions] find nothing, a
    second [delete_key] returns [False], and the next [add_version] for it
    starts again at number 1. *)
Theorem X9_delete_key_effect (s : VersionManager.t) (key : str) :
  let deleted := fst (VersionManager.delete_key key s) in
  let s' := snd (VersionManager.delete_key key s) in
  (deleted = true <-> In key (VersionManager.get_all_keys s))
  /\ (forall key' ver, key' <> key ->
                       VersionManager.get_version key' ver s'
                         = VersionManager.get_version key' ver s)
  /\ (well_formed s = true ->
      ~ In key (VersionManager.get_all_keys s')
      /\ (forall ver, VersionManager.get_version key ver s' = None)
      /\ VersionManager.list_versions key s' = []
      /\ VersionManager.delete_key key s' = (false, s')
      /\ forall blob md c,
           fst (fst (VersionManager.add_version key blob md s' c)) = 1%Z).
Proof.
  cbv zeta. unfold VersionManager.delete_key, dict_in.
  split; [|split].
  - destruct (dict_get key s) as [data|] eqn:E; cbn [fst].
    + split; [intros _; now apply (dict_get_in_keys key data) | reflexivity].
    + split; [discriminate|]. intros Hin.
      apply dict_get_some_in_keys in Hin as [v Hv]. congruence.
  - intros key' ver Hne. apply get_version_other_key.
    destruct (dict_get key s); cbn [snd]; [|reflexivity].
    apply dict_get_del_ne. congruence.
  - intros Hwf. apply well_formed_parts in Hwf as [Hnd _].
    assert (~ In key (VersionManager.get_all_keys
                        (snd (if match dict_get key s with
                                 | Some _ => true
                                 | None => false
                                 end
                              then (true, dict_del key s) else (false, s)))))
      as Hnin.
    { destruct (dict_get key s) as [data|] eqn:E; cbn [snd].
      - now apply dict_del_not_in.
      - intros Hin. apply dict_get_some_in_keys in Hin as [v Hv]. congruence. }
    set (s' := snd _) in *.
    pose proof (dict_get_none key s' Hnin) as Hnone.
    split; [exact Hnin|]. split; [|split; [|split]].
    + intros ver. unfold VersionManager.get_version. now rewrite Hnone.
    + unfold VersionManager.list_versions. now rewrite Hnone.
    + now rewrite Hnone.
    + intros blob md c. rewrite add_version_result. unfold current_version_of.
      now rewrite Hnone.
Qed.

Lemma X9_witness :
  let s := version_manager Ref.vault_t in
  let s' := snd (VersionManager.delete_key "T" s) in
  ~ In "T"%string (VersionManager.get_all_keys s')
  /\ (forall ver, VersionManager.get_version "T" ver s' = None)
  /\ VersionManager.list_versions "T" s' = []
  /\ VersionManager.delete_key "T" s' = (false, s')
  /\ forall blob md c,
       fst (fst (VersionManager.add_version "T" blob md s' c)) = 1%Z.
Proof.
  exact (proj2 (proj2 (X9_delete_key_effect (version_manager Ref.vault_t) "T"))
           eq_refl).
Defined.

Section BackFromDict.
Import VersionManager.

Lemma version_from_to_dict (v : SecretVersion.t) (c : Clock) :
  stamped v = true ->
  SecretVersion.from_dict (SecretVersion.to_dict v) c = (v, c).
Proof.
  unfold stamped, SecretVersion.from_dict, SecretVersion.to_dict,
    SecretVersion.init.
  destruct v as [n blob [|a ts] md]; cbn; [discriminate | reflexivity].
Qed.

Lemma versions_from_to_dict (vs : list SecretVersion.t) (c : Clock) :
  forallb stamped vs = true ->
  versions_from_dict (map SecretVersion.to_dict vs) c = (vs, c).
Proof.
  induction vs as [|v vs IH]; cbn [map versions_from_dict forallb];
    [reflexivity|].
  intros H. apply andb_true_iff in H as [Hv Hvs].
  now rewrite (version_from_to_dict v c Hv), (IH Hvs).
Qed.

Lemma from_dict_items_to_dict (items acc : VersionManager.t) (c : Clock) :
  NoDup (dict_keys acc ++ dict_keys items) ->
  forallb (fun item : str * KeyData => entry_ok (snd item)) items = true ->
  from_dict_items (to_dict items) acc c = (acc ++ items, c).
Proof.
  revert acc. induction items as [|[k data] items IH]; intros acc Hnd Hok.
  - cbn. now rewrite app_nil_r.
  - cbn in Hok. apply andb_true_iff in Hok as [Hdata Hitems].
    apply entry_ok_parts in Hdata as (_ & _ & _ & Hst).
    cbn [to_dict map from_dict_items dict_versions dict_current_version].
    rewrite (versions_from_to_dict (versions data) c Hst).
    cbn [dict_keys map fst] in Hnd.
    assert (~ In k (dict_keys acc)) as Hnin.
    { apply NoDup_remove_2 in Hnd. intros Hin. apply Hnd.
      apply in_or_app. now left. }
    rewrite (dict_set_absent k _ acc Hnin).
    fold (to_dict items). rewrite IH.
    + rewrite <- app_assoc. cbn. now destruct data.
    + unfold dict_keys. rewrite map_app. cbn [map fst].
      rewrite <- app_assoc. exact Hnd.
    + exact Hitems.
Qed.

Lemma from_to_dict (s : VersionManager.t) (c : Clock) :
  well_formed s = true -> from_dict (to_dict s) c = (s, c).
Proof.
  intros Hwf. apply well_formed_parts in Hwf as [Hnd Hok].
  unfold from_dict. now rewrite (from_dict_items_to_dict s [] c Hnd Hok).
Qed.

End BackFromDict.

(** X10.  For every well-formed store, [to_dict] followed by [from_dict]
    gives the store back (keys, order, numbers, blobs, timestamps, metadata
    and [current_version]) without reading the clock; so a store built
    through the interface survives being exported and imported, also after
    further calls. *)
Theorem X10_store_survives_export (s : VersionManager.t) (c : Clock) :
  well_formed s = true ->
  VersionManager.from_dict (VersionManager.to_dict s) c = (s, c)
  /\ forall key blob md c1 version c2,
       let s1 := snd (VersionManager.delete_version
                        key version
                        (snd (fst (VersionManager.add_version
                                     key blob md s c1)))) in
       VersionManager.from_dict (VersionManager.to_dict s1) c2 = (s1, c2).
Proof.
  intros Hwf. split; [now apply from_to_dict|].
  intros key blob md c1 version c2 s1. apply from_to_dict.
  apply delete_version_well_formed. now apply add_version_well_formed.
Qed.

Lemma X10_witness :
  VersionManager.from_dict
    (VersionManager.to_dict (version_manager Ref.vault_t)) Ref.clock0
  = (version_manager Ref.vault_t, Ref.clock0).
Proof.
  exact (proj1 (X10_store_survives_export
                  (version_manager Ref.vault_t) Ref.clock0 eq_refl)).
Defined.

Section RotationReport.
Context {ext : Externals}.
Import VersionManager.



End RotationReport.


(** ** vault.py *)

Section FacadeFacts.
Context {ext : Externals}.
Import MobileSecretsVault.

(** [set] with a 32-byte master key and a value that encodes, field by
    field. *)
Lemma set_ok_full (key value : str) (md : option Metadata) (self : Vault) :
  len (master_key self) = 32%nat -> encodable value = true ->
  let blob := sealed (master_key self) (draw (rng self) (consumed (rng self)))
                     value in
  let added := VersionManager.add_version key blob md (version_manager self)
                                          (clock self) in
  let self' := snd (set key value md self) in
  fst (set key value md self) = Ok (fst (fst added))
  /\ version_manager self' = snd (fst added)
  /\ master_key self' = master_key self
  /\ auto_save self' = auto_save self
  /\ storage self'
     = (if auto_save self
        then StorageBackend.save (VersionManager.to_dict (snd (fst added)))
                                 (storage self)
        else storage self)
  /\ consumed (rng self') = consumed (rng self) + 12
  /\ stdout self' = stdout self
  /\ logged self self' AuditLogger.SET (Some key) true.
Proof.
  intros Hk He blob added.
  unfold set, try_except, bind, crypto_encrypt, vm_add_version, attr.
  rewrite (encrypt_ok value (master_key self) (rng self) Hk He).
  cbn [rng set_rng master_key version_manager clock].
  fold blob. fold added. destruct added as [[n vm] c]. cbn.
  unfold logged.
  destruct (auto_save self) eqn:Ea; cbn; repeat split; try reflexivity;
    try exact Ea;
    (eexists; split; [reflexivity|]; repeat split).
Qed.

(** [set] with any other master key: the error, and nothing else but the
    audit entry. *)
Lemma set_bad_key_full (key value : str) (md : option Metadata)
  (self : Vault) :
  len (master_key self) <> 32%nat ->
  let self' := snd (set key value md self) in
  fst (set key value md self)
    = Raise (VaultError FailedToSetSecret
               (ValueError (KeyMustBe32Bytes (len (master_key self)))))
  /\ version_manager self' = version_manager self
  /\ storage self' = storage self
  /\ rng self' = rng self
  /\ master_key self' = master_key self
  /\ logged self self' AuditLogger.SET (Some key) false.
Proof.
  intros Hk.
  unfold set, try_except, bind, crypto_encrypt, vm_add_version, attr.
  rewrite (encrypt_bad_key value (master_key self) (rng self) Hk). cbn.
  unfold logged. repeat split; try (now destruct (rng self)).
  eexists. split; [reflexivity|]. repeat split.
Qed.

(** [set] with a 32-byte master key and a value that does not encode: the
    error, the nonce spent, and nothing else but the audit entry. *)
Lemma set_not_encodable_full (key value : str) (md : option Metadata)
  (self : Vault) :
  len (master_key self) = 32%nat -> encodable value = false ->
  let self' := snd (set key value md self) in
  fst (set key value md self)
    = Raise (VaultError FailedToSetSecret UnicodeEncodeError)
  /\ version_manager self' = version_manager self
  /\ storage self' = storage self
  /\ consumed (rng self') = consumed (rng self) + 12
  /\ master_key self' = master_key self
  /\ logged self self' AuditLogger.SET (Some key) false.
Proof.
  intros Hk He.
  unfold set, try_except, bind, crypto_encrypt, vm_add_version, attr.
  rewrite (encrypt_not_encodable value (master_key self) (rng self) Hk He).
  cbn. unfold logged. repeat split.
  eexists. split; [reflexivity|]. repeat split.
Qed.

Lemma get_full (key : str) (version : option Z) (self : Vault) :
  let self' := snd (get key version self) in
  fst (get key version self) =
    match VersionManager.get_version key version (version_manager self) with
    | None => Raise (SecretNotFoundError key)
    | Some sv =>
        match CryptoEngine.decrypt (SecretVersion.encrypted_value sv)
                                   (master_key self) with
        | Ok plaintext => Ok plaintext
        | Raise e => Raise (VaultError FailedToGetSecret e)
        end
    end
  /\ version_manager self' = version_manager self
  /\ master_key self' = master_key self
  /\ storage self' = storage self
  /\ rng self' = rng self
  /\ stdout self' = stdout self
  /\ auto_save self' = auto_save self
  /\ logged self self' AuditLogger.GET (Some key)
            (is_ok (fst (get key version self))).
Proof.
  unfold get, try_except, bind, attr, crypto_decrypt, raise, ret, logged.
  destruct (VersionManager.get_version key version (version_manager self))
    as [sv|].
  - destruct (CryptoEngine.decrypt (SecretVersion.encrypted_value sv)
                                   (master_key self)) as [p|e] eqn:E.
    + cbn. repeat split. eexists. split; [reflexivity|]. repeat split.
    + pose proof (decrypt_raises _ _ _ E) as He.
      destruct e; try contradiction; cbn; repeat split;
        (eexists; split; [reflexivity|]; repeat split).
  - cbn. repeat split. eexists. split; [reflexivity|]. repeat split.
Qed.

Lemma delete_full (key : str) (self : Vault) :
  let deleted := dict_in key (version_manager self) in
  let self' := snd (delete key self) in
  fst (delete key self) = Ok deleted
  /\ version_manager self'
     = snd (VersionManager.delete_key key (version_manager self))
  /\ master_key self' = master_key self
  /\ auto_save self' = auto_save self
  /\ storage self'
     = (if deleted && auto_save self
        then StorageBackend.save
               (VersionManager.to_dict
                  (snd (VersionManager.delete_key key (version_manager self))))
               (storage self)
        else storage self)
  /\ logged self self' AuditLogger.DELETE (Some key) deleted.
Proof.
  cbv zeta. unfold delete, try_except, bind, attr, VersionManager.delete_key,
    logged.
  destruct (dict_in key (version_manager self)); cbn.
  - destruct (auto_save self) eqn:Ea; cbn; repeat split;
      try exact Ea;
      (eexists; split; [reflexivity|]; repeat split).
  - repeat split. eexists. split; [reflexivity|]. repeat split.
Qed.


Lemma list_versions_full (key : str) (self : Vault) :
  let self' := snd (list_versions key self) in
  fst (list_versions key self)
    = Ok (VersionManager.list_versions key (version_manager self))
  /\ version_manager self' = version_manager self
  /\ storage self' = storage self
  /\ logged self self' AuditLogger.LIST_VERSIONS (Some key) true.
Proof.
  unfold list_versions, try_except, bind, attr, logged. cbn.
  repeat split. eexists. split; [reflexivity|]. repeat split.
Qed.

(** What [init] leaves, given what the key sources and the file hold. *)
Lemma init_full (direct_key : option bytes) (env_key : option str)
  (key_file : option KeyFile) (default_key_file : KeyFile)
  (file : StorageBackend.t) (auto : bool) (r : Rng) (c : Clock)
  (key : bytes) :
  _load_master_key direct_key env_key key_file default_key_file = Ok key ->
  exists self,
    init direct_key env_key key_file default_key_file file auto r c = Ok self
    /\ master_key self = key
    /\ auto_save self = auto
    /\ storage self = file
    /\ rng self = r
    /\ version_manager self =
         match StorageBackend.load file with
         | Ok (item :: rest) =>
             fst (VersionManager.from_dict (item :: rest) c)
         | _ => []
         end
    /\ stdout self =
         match StorageBackend.load file with
         | Raise e => [WarningFailedToLoad e]
         | Ok _ => []
         end
    /\ logged {| auto_save := auto; master_key := key; storage := file;
                 version_manager := []; audit_logger := []; rng := r;
                 clock := c; stdout := [] |}
              self AuditLogger.INIT None true.
Proof.
  intros Hkey. unfold init. rewrite Hkey.
  unfold bind, _load_secrets, audit_log, logged. cbn [storage clock stdout].
  destruct (StorageBackend.load file) as [[|item rest]|e].
  - cbn. eexists. split; [reflexivity|]. repeat split.
    eexists. split; [reflexivity|]. repeat split.
  - destruct (VersionManager.from_dict (item :: rest) c) as [vm c'] eqn:E.
    cbn. eexists. split; [reflexivity|]. repeat split.
    eexists. split; [reflexivity|]. repeat split.
  - cbn. eexists. split; [reflexivity|]. repeat split.
    eexists. split; [reflexivity|]. repeat split.
Qed.

End FacadeFacts.

Section FacadeComposition.
Context {ext : Externals}.
Import MobileSecretsVault.

Lemma to_dict_nil (vm : VersionManager.t) :
  VersionManager.to_dict vm = [] -> vm = [].
Proof. now destruct vm. Qed.

(** Opening a vault on a file that holds the export of a well-formed store
    gives that store back. *)
Lemma reopen_store (direct_key : option bytes) (env_key : option str)
  (key_file : option KeyFile) (default_key_file : KeyFile)
  (file : StorageBackend.t) (auto : bool) (r : Rng) (c : Clock)
  (key : bytes) (vm : VersionManager.t) :
  _load_master_key direct_key env_key key_file default_key_file = Ok key ->
  StorageBackend.load file = Ok (VersionManager.to_dict vm) ->
  well_formed vm = true ->
  exists self,
    init direct_key env_key key_file default_key_file file auto r c = Ok self
    /\ master_key self = key
    /\ version_manager self = vm.
Proof.
  intros Hkey Hload Hwf.
  destruct (init_full direct_key env_key key_file default_key_file file auto
                      r c key Hkey)
    as (self & Hinit & Hmk & _ & _ & _ & Hvm & _).
  exists self. split; [exact Hinit|]. split; [exact Hmk|].
  rewrite Hvm, Hload.
  destruct (VersionManager.to_dict vm) as [|item rest] eqn:E.
  - symmetry. now apply to_dict_nil.
  - rewrite <- E. now rewrite (from_to_dict vm c Hwf).
Qed.

(** Two vaults with the same store and master key answer [get] alike. *)
Lemma get_same (key : str) (ver : option Z) (a b : Vault) :
  version_manager a = version_manager b ->
  master_key a = master_key b ->
  fst (get key ver a) = fst (get key ver b).
Proof.
  intros Hvm Hmk.
  rewrite (proj1 (get_full key ver a)), (proj1 (get_full key ver b)).
  now rewrite Hvm, Hmk.
Qed.



End FacadeComposition.


(** X13.  What [set] refuses.  [set] returns only when the master key has
    32 bytes and the value encodes as UTF-8.  With any other master key it
    raises a [VaultError] wrapping the key-length error, and the store, the
    storage and the random source are as before.  With a 32-byte master
    key and a value that does not encode it raises a [VaultError] wrapping
    [UnicodeEncodeError]: the store and the storage are as before, and the
    twelve bytes of the nonce have been drawn. *)
Theorem X13_what_set_refuses {ext : Externals} (self : Vault)
  (k v : str) (md : option Metadata) :
  (is_ok (fst (MobileSecretsVault.set k v md self)) = true ->
   len (master_key self) = 32%nat /\ encodable v = true)
  /\ (len (master_key self) <> 32%nat ->
      let self' := snd (MobileSecretsVault.set k v md self) in
      fst (MobileSecretsVault.set k v md self)
        = Raise (VaultError FailedToSetSecret
                   (ValueError (KeyMustBe32Bytes (len (master_key self)))))
      /\ version_manager self' = version_manager self
      /\ storage self' = storage self
      /\ rng self' = rng self)
  /\ (len (master_key self) = 32%nat -> encodable v = false ->
      let self' := snd (MobileSecretsVault.set k v md self) in
      fst (MobileSecretsVault.set k v md self)
        = Raise (VaultError FailedToSetSecret UnicodeEncodeError)
      /\ version_manager self' = version_manager self
      /\ storage self' = storage self
      /\ consumed (rng self') = consumed (rng self) + 12).
Proof.
  split; [|split].
  - destruct (Nat.eq_dec (len (master_key self)) 32) as [Hk|Hk].
    + destruct (encodable v) eqn:He; [now split|].
      rewrite (proj1 (set_not_encodable_full k v md self Hk He)).
      discriminate.
    + rewrite (proj1 (set_bad_key_full k v md self Hk)). discriminate.
  - intros Hk self'.
    destruct (set_bad_key_full k v md self Hk) as (H1 & H2 & H3 & H4 & _).
    repeat split; assumption.
  - intros Hk He self'.
    destruct (set_not_encodable_full k v md self Hk He)
      as (H1 & H2 & H3 & H4 & _).
    repeat split; assumption.
Qed.

Lemma X13_witness :
  (let self := Ref.vault0 [x00; x01] in
   fst (MobileSecretsVault.set (ext := Ref.externals) "K" "v" None self)
     = Raise (VaultError FailedToSetSecret (ValueError (KeyMustBe32Bytes 2)))
   /\ version_manager
        (snd (MobileSecretsVault.set (ext := Ref.externals) "K" "v" None self))
      = [])
  /\ (let self := Ref.vault0 Ref.key_a in
      fst (MobileSecretsVault.set (ext := Ref.externals)
                                  "K" Ref.lone_surrogate None self)
        = Raise (VaultError FailedToSetSecret UnicodeEncodeError)
      /\ consumed (rng (snd (MobileSecretsVault.set
                               (ext := Ref.externals)
                               "K" Ref.lone_surrogate None self)))
         = consumed (rng self) + 12).
Proof.
  split.
  - intros self.
    destruct (proj1 (proj2 (X13_what_set_refuses (ext := Ref.externals)
                              self "K"%string "v"%string None)))
      as (H1 & H2 & _).
    + discriminate.
    + split; [exact H1 | exact H2].
  - intros self.
    destruct (proj2 (proj2 (X13_what_set_refuses (ext := Ref.externals)
                              self "K"%string Ref.lone_surrogate None))
                    eq_refl eq_refl)
      as (H1 & _ & _ & H4).
    split; [exact H1 | exact H4].
Defined.

(** X14.  [get] only reads: whatever it returns, the store, the master key,
    the storage, the random source and the standard output are as before.
    It raises [SecretNotFoundError] exactly when the key or the version
    asked for is not stored. *)
Theorem X14_get_only_reads {ext : Externals} (self : Vault) (k : str)
  (ver : option Z) :
  let self' := snd (MobileSecretsVault.get k ver self) in
  version_manager self' = version_manager self
  /\ master_key self' = master_key self
  /\ storage self' = storage self
  /\ rng self' = rng self
  /\ stdout self' = stdout self
  /\ (fst (MobileSecretsVault.get k ver self) = Raise (SecretNotFoundError k)
      <-> VersionManager.get_version k ver (version_manager self) = None).
Proof.
  destruct (get_full k ver self) as (Hres & H1 & H2 & H3 & H4 & H5 & _).
  cbv zeta. repeat split; try assumption.
  - rewrite Hres.
    destruct (VersionManager.get_version k ver (version_manager self)) as [sv|];
      [|reflexivity].
    destruct (CryptoEngine.decrypt _ _); discriminate.
  - intros H. now rewrite Hres, H.
Qed.

(** X15.  [delete] removes the secret.  When [delete(k)] returns, it returns
    whether the key was stored.  On a well-formed store the secret is gone
    from the vault afterwards: [get] raises [SecretNotFoundError] for every
    version, a second [delete] returns [False], and the other keys answer
    [get] as before.  The storage is left untouched when the key was not
    stored or [auto_save] is off. *)
Theorem X15_delete_removes_the_secret {ext : Externals} (self : Vault)
  (k : str) :
  well_formed (version_manager self) = true ->
  let self' := snd (MobileSecretsVault.delete k self) in
  (forall deleted,
      fst (MobileSecretsVault.delete k self) = Ok deleted ->
      deleted = dict_in k (version_manager self))
  /\ (forall ver,
         fst (MobileSecretsVault.get k ver self')
           = Raise (SecretNotFoundError k))
  /\ fst (MobileSecretsVault.delete k self') = Ok false
  /\ (forall k' ver, k' <> k ->
         fst (MobileSecretsVault.get k' ver self')
           = fst (MobileSecretsVault.get k' ver self))
  /\ well_formed (version_manager self') = true
  /\ (dict_in k (version_manager self) && auto_save self = false ->
      storage self' = storage self).
Proof.
  intros Hwf self'.
  destruct (delete_full k self) as (Hres & Hvm & Hmk & _ & Hst & _).
  fold self' in Hvm, Hmk, Hst.
  assert (dict_get k (version_manager self') = None) as Hnone.
  { rewrite Hvm. unfold VersionManager.delete_key, dict_in.
    apply well_formed_parts in Hwf as [Hnd _].
    destruct (dict_get k (version_manager self)) as [data|] eqn:E; cbn [snd].
    - apply dict_get_none. now apply dict_del_not_in.
    - exact E. }
  split; [|split; [|split; [|split; [|split]]]].
  - intros deleted H. rewrite Hres in H. now injection H.
  - intros ver. rewrite (proj1 (get_full k ver self')).
    unfold VersionManager.get_version. now rewrite Hnone.
  - rewrite (proj1 (delete_full k self')). unfold dict_in. now rewrite Hnone.
  - intros k' ver Hne.
    rewrite (proj1 (get_full k' ver self')), (proj1 (get_full k' ver self)).
    rewrite Hmk, Hvm.
    rewrite (get_version_other_key k' ver (version_manager self)
               (snd (VersionManager.delete_key k (version_manager self))));
      [reflexivity|].
    apply delete_key_other. congruence.
  - rewrite Hvm. now apply delete_key_well_formed.
  - intros Hnw. now rewrite Hst, Hnw.
Qed.

Lemma X15_witness :
  let self' := snd (MobileSecretsVault.delete "T" Ref.vault_t) in
  (forall ver,
      fst (MobileSecretsVault.get (ext := Ref.externals) "T" ver self')
        = Raise (SecretNotFoundError "T"))
  /\ fst (MobileSecretsVault.delete "T" self') = Ok false.
Proof.
  intros self'.
  destruct (X15_delete_removes_the_secret (ext := Ref.externals)
              Ref.vault_t "T" eq_refl)
    as (_ & H2 & H3 & _).
  split; [exact H2 | exact H3].
Defined.

(** X16.  Secrets persist.  When the secrets file loads as the export of
    the well-formed store of a vault, a vault opened on that file, with a
    key source that yields the same master key, holds the same store and
    prints no warning: every [get] answers as in the first vault. *)
Theorem X16_secrets_persist {ext : Externals} (self : Vault)
  (direct_key : option bytes) (env_key : option str)
  (key_file : option MobileSecretsVault.KeyFile)
  (default_key_file : MobileSecretsVault.KeyFile)
  (file : StorageBackend.t) (auto : bool) (r : Rng) (c : Clock) :
  well_formed (version_manager self) = true ->
  StorageBackend.load file
    = Ok (VersionManager.to_dict (version_manager self)) ->
  MobileSecretsVault._load_master_key direct_key env_key key_file
                                      default_key_file
    = Ok (master_key self) ->
  exists reopened,
    MobileSecretsVault.init direct_key env_key key_file default_key_file
                            file auto r c = Ok reopened
    /\ version_manager reopened = version_manager self
    /\ master_key reopened = master_key self
    /\ stdout reopened = []
    /\ forall k ver,
         fst (MobileSecretsVault.get k ver reopened)
           = fst (MobileSecretsVault.get k ver self).
Proof.
  intros Hwf Hload Hkey.
  destruct (reopen_store direct_key env_key key_file default_key_file
                         file auto r c (master_key self)
                         (version_manager self) Hkey Hload Hwf)
    as (reopened & Hinit & Hmk & Hvm).
  exists reopened. split; [exact Hinit|]. split; [exact Hvm|].
  split; [exact Hmk|]. split.
  - destruct (init_full direct_key env_key key_file default_key_file file
                        auto r c (master_key self) Hkey)
      as (self0 & Hinit0 & _ & _ & _ & _ & _ & Hout & _).
    rewrite Hinit in Hinit0. injection Hinit0 as <-.
    now rewrite Hout, Hload.
  - intros k ver. apply get_same; assumption.
Qed.

Lemma X16_witness :
  exists reopened,
    MobileSecretsVault.init (Some Ref.key_a) None None
      MobileSecretsVault.NoKeyFile (storage Ref.vault_t) false
      Ref.rng0 Ref.clock0
      = Ok reopened
    /\ fst (MobileSecretsVault.get (ext := Ref.externals) "T" None reopened)
       = fst (MobileSecretsVault.get (ext := Ref.externals) "T" None
                                     Ref.vault_t).
Proof.
  destruct (X16_secrets_persist (ext := Ref.externals) Ref.vault_t
              (Some Ref.key_a) None None MobileSecretsVault.NoKeyFile
              (storage Ref.vault_t) false Ref.rng0 Ref.clock0
              eq_refl eq_refl eq_refl)
    as (reopened & H1 & _ & _ & _ & H5).
  exists reopened. split; [exact H1 | apply H5].
Defined.

(** X17.  What leaves the secrets file alone.  With [auto_save] off, [set]
    does not touch the storage.  A [set] that [encrypt] refuses (a master
    key that does not have 32 bytes, or a value that does not encode)
    touches neither the storage nor the store, whatever [auto_save] says.
    A [delete] of a key that is not stored, or with [auto_save] off, does
    not touch the storage.  [get], [list_versions], [list_keys] and
    [get_audit_log] never do. *)
Theorem X17_what_leaves_the_file_alone {ext : Externals} (self : Vault) :
  (forall k v md,
      auto_save self = false ->
      storage (snd (MobileSecretsVault.set k v md self)) = storage self)
  /\ (forall k v md,
         len (master_key self) <> 32%nat \/ encodable v = false ->
         storage (snd (MobileSecretsVault.set k v md self)) = storage self
         /\ version_manager (snd (MobileSecretsVault.set k v md self))
            = version_manager self)
  /\ (forall k,
         dict_in k (version_manager self) && auto_save self = false ->
         storage (snd (MobileSecretsVault.delete k self)) = storage self)
  /\ (forall k ver,
         storage (snd (MobileSecretsVault.get k ver self)) = storage self)
  /\ (forall k,
         storage (snd (MobileSecretsVault.list_versions k self))
           = storage self)
  /\ storage (snd (MobileSecretsVault.list_keys self)) = storage self
  /\ (forall k limit,
         storage (snd (MobileSecretsVault.get_audit_log k limit self))
           = storage self).
Proof.
  assert (forall k v md,
             len (master_key self) <> 32%nat \/ encodable v = false ->
             storage (snd (MobileSecretsVault.set k v md self)) = storage self
             /\ version_manager (snd (MobileSecretsVault.set k v md self))
                = version_manager self) as Hrefused.
  { intros k v md H.
    destruct (Nat.eq_dec (len (master_key self)) 32) as [Hk|Hk].
    - destruct H as [H|He]; [contradiction|].
      destruct (set_not_encodable_full k v md self Hk He)
        as (_ & H2 & H3 & _).
      now split.
    - destruct (set_bad_key_full k v md self Hk) as (_ & H2 & H3 & _).
      now split. }
  split; [|split; [exact Hrefused|split; [|split; [|split; [|split]]]]].
  - intros k v md Hauto.
    destruct (Nat.eq_dec (len (master_key self)) 32) as [Hk|Hk];
      [|apply Hrefused; now left].
    destruct (encodable v) eqn:He; [|apply Hrefused; now right].
    destruct (set_ok_full k v md self Hk He) as (_ & _ & _ & _ & Hst & _).
    now rewrite Hst, Hauto.
  - intros k Hnw.
    destruct (delete_full k self) as (_ & _ & _ & _ & Hst & _).
    now rewrite Hst, Hnw.
  - intros k ver. apply get_full.
  - intros k. apply list_versions_full.
  - reflexivity.
  - reflexivity.
Qed.

Lemma X17_witness :
  let self := Ref.vault0 [x00; x01] in
  storage (snd (MobileSecretsVault.set (ext := Ref.externals)
                  "K" "v" None self))
    = storage self
  /\ version_manager (snd (MobileSecretsVault.set (ext := Ref.externals)
                             "K" "v" None self))
     = version_manager self.
Proof.
  intros self.
  refine (proj1 (proj2 (X17_what_leaves_the_file_alone
                          (ext := Ref.externals) self))
                "K"%string "v"%string None _).
  left. discriminate.
Defined.







(** X21.  A secrets file that does not parse does not stop the vault: it
    opens with an empty store and prints one warning.  With a 32-byte key,
    [auto_save] on and a value that encodes, the first [set] then replaces
    the file by the export of a store holding that one secret, and the
    unparsed bytes survive only as the backup. *)
Theorem X21_unparseable_file_is_replaced {ext : Externals}
  (key : bytes) (backup : StorageBackend.File) (r : Rng) (c : Clock)
  (k v : str) (md : option Metadata) :
  len key = 32%nat ->
  encodable v = true ->
  let file := {| StorageBackend.filepath := StorageBackend.Unparseable;
                 StorageBackend.backup_path := backup |} in
  exists self,
    MobileSecretsVault.init (Some key) None None MobileSecretsVault.NoKeyFile
                            file true r c = Ok self
    /\ version_manager self = []
    /\ stdout self = [WarningFailedToLoad YAMLError]
    /\ let self' := snd (MobileSecretsVault.set k v md self) in
       fst (MobileSecretsVault.set k v md self) = Ok 1%Z
       /\ VersionManager.get_all_keys (version_manager self') = [k]
       /\ StorageBackend.filepath (storage self')
          = StorageBackend.Yaml (VersionManager.to_dict (version_manager self'))
       /\ StorageBackend.backup_path (storage self')
          = StorageBackend.Unparseable.
Proof.
  intros HK He file.
  destruct (init_full (Some key) None None MobileSecretsVault.NoKeyFile file
                      true r c key eq_refl)
    as (self & Hinit & Hmk & Hauto & Hst & _ & Hvm & Hout & _).
  cbn in Hvm, Hout.
  exists self. split; [exact Hinit|]. split; [exact Hvm|].
  split; [exact Hout|]. intros self'.
  assert (len (master_key self) = 32%nat) as HK' by now rewrite Hmk.
  destruct (set_ok_full k v md self HK' He)
    as (Hres & Hvm' & _ & _ & Hst' & _).
  fold self' in Hvm', Hst'. rewrite Hauto, Hst in Hst'.
  rewrite Hres, Hvm', Hst', Hvm.
  unfold VersionManager.add_version, SecretVersion.init.
  destruct (utcnow_z (clock self)) as [now c']. cbn.
  repeat split.
Qed.

Lemma X21_witness :
  exists self,
    MobileSecretsVault.init (Some Ref.key_a) None None
      MobileSecretsVault.NoKeyFile
      {| StorageBackend.filepath := StorageBackend.Unparseable;
         StorageBackend.backup_path := StorageBackend.Missing |}
      true Ref.rng0 Ref.clock0 = Ok self
    /\ version_manager self = []
    /\ stdout self = [WarningFailedToLoad YAMLError].
Proof.
  destruct (X21_unparseable_file_is_replaced (ext := Ref.externals)
              Ref.key_a StorageBackend.Missing Ref.rng0 Ref.clock0
              "K" "v" None eq_refl eq_refl)
    as (self & H1 & H2 & H3 & _).
  exists self. split; [exact H1|]. split; [exact H2 | exact H3].
Defined.



(** ** audit.py *)

Section AuditFacts.
Import AuditLogger.

Lemma ltb_asym (a b : str) : String.ltb a b = true -> String.ltb b a = false.
Proof.
  unfold String.ltb. rewrite (String.compare_antisym b a).
  now destruct (String.compare a b).
Qed.

Lemma insert_desc_perm (x : LogEntry) (l : list LogEntry) :
  Permutation (x :: l) (insert_desc x l).
Proof.
  induction l as [|y l IH]; cbn; [reflexivity|].
  destruct (String.ltb (log_timestamp x) (log_timestamp y)); [|reflexivity].
  rewrite perm_swap. now constructor.
Qed.

Lemma sort_desc_cons (x : LogEntry) (l : list LogEntry) :
  sort_desc (x :: l) = insert_desc x (sort_desc l).
Proof. reflexivity. Qed.

Lemma sort_desc_perm (l : list LogEntry) : Permutation l (sort_desc l).
Proof.
  induction l as [|x l IH]; [constructor|].
  rewrite sort_desc_cons, <- insert_desc_perm. now constructor.
Qed.

Lemma insert_desc_hd (y x : LogEntry) (l : list LogEntry) :
  not_earlier y x -> HdRel not_earlier y l ->
  HdRel not_earlier y (insert_desc x l).
Proof.
  intros Hyx Hl. destruct l as [|z l]; cbn; [now constructor|].
  destruct (String.ltb (log_timestamp x) (log_timestamp z)).
  - constructor. now inversion Hl.
  - now constructor.
Qed.

Lemma insert_desc_sorted (x : LogEntry) (l : list LogEntry) :
  Sorted not_earlier l -> Sorted not_earlier (insert_desc x l).
Proof.
  induction l as [|y l IH]; intros Hl; cbn.
  - repeat constructor.
  - inversion Hl as [|? ? Hs Hh]; subst.
    destruct (String.ltb (log_timestamp x) (log_timestamp y)) eqn:E.
    + constructor; [now apply IH|].
      apply insert_desc_hd; [|exact Hh]. now apply ltb_asym.
    + constructor; [exact Hl|]. now constructor.
Qed.

Lemma sort_desc_sorted (l : list LogEntry) : Sorted not_earlier (sort_desc l).
Proof.
  induction l as [|x l IH]; [constructor|].
  rewrite sort_desc_cons. now apply insert_desc_sorted.
Qed.

Lemma sort_desc_fixed (l : list LogEntry) :
  Sorted not_earlier l -> sort_desc l = l.
Proof.
  induction l as [|x l IH]; intros Hl; [reflexivity|].
  inversion Hl as [|? ? Hs Hh]; subst. rewrite sort_desc_cons, (IH Hs).
  destruct l as [|y l]; cbn; [reflexivity|].
  inversion Hh as [|? ? Hxy]; subst. unfold not_earlier in Hxy.
  now rewrite Hxy.
Qed.

Lemma firstn_sorted (n : nat) (l : list LogEntry) :
  Sorted not_earlier l -> Sorted not_earlier (firstn n l).
Proof.
  revert l. induction n as [|n IH]; intros l Hl; cbn; [constructor|].
  destruct l as [|x l]; [constructor|].
  inversion Hl as [|? ? Hs Hh]; subst. constructor; [now apply IH|].
  destruct l as [|y l]; destruct n; cbn; constructor. now inversion Hh.
Qed.

Lemma firstn_in {A : Type} (n : nat) (l : list A) (x : A) :
  In x (firstn n l) -> In x l.
Proof.
  revert l. induction n as [|n IH]; intros l; cbn; [intros []|].
  destruct l as [|y l]; [intros []|]. cbn.
  intros [H|H]; [now left | right; now apply IH].
Qed.

Lemma filter_filter {A : Type} (p q : A -> bool) (l : list A) :
  filter q (filter p l) = filter (fun x => p x && q x) l.
Proof.
  induction l as [|x l IH]; cbn; [reflexivity|].
  destruct (p x); cbn; [|exact IH]. destruct (q x); now rewrite IH.
Qed.

(** Without a limit [get_logs] sorts the selected entries. *)
Lemma get_logs_unlimited (key : option str) (operation : option Operation)
  (logs : list LogEntry) :
  get_logs key operation None logs
    = sort_desc (filter (selected key operation) logs).
Proof.
  unfold get_logs, selected. f_equal.
  destruct key as [k|], operation as [op|]; cbn.
  - apply filter_filter.
  - apply filter_ext. intros e. now rewrite andb_true_r.
  - reflexivity.
  - symmetry. clear. induction logs as [|e l IH]; cbn; [reflexivity|].
    now rewrite IH.
Qed.

Lemma get_logs_limited (key : option str) (operation : option Operation)
  (n : Z) (logs : list LogEntry) :
  get_logs key operation (Some n) logs
    = slice_to n (get_logs key operation None logs).
Proof. reflexivity. Qed.

End AuditFacts.

(** X23.  [get_logs(key, operation, limit)] returns entries of the log that
    match the key and the operation asked for, newest first.  Without a
    limit it returns all of them, each as often as it is in the log; a
    limit [n >= 0] keeps the first [n] of those; a negative limit drops the
    last [-n] instead.  A selection that is already newest-first (for
    instance entries that all carry the same timestamp) comes back in the
    order of the log.  [get_audit_log] returns this for the vault's log and
    changes nothing. *)
Theorem X23_get_logs (key : option str)
  (operation : option AuditLogger.Operation) (limit : option Z)
  (logs : AuditLogger.t) :
  let all := AuditLogger.get_logs key operation None logs in
  let result := AuditLogger.get_logs key operation limit logs in
  Permutation (filter (selected key operation) logs) all
  /\ Sorted not_earlier result
  /\ (forall e, In e result ->
                In e logs /\ selected key operation e = true)
  /\ (limit = None -> result = all)
  /\ (forall n, limit = Some n -> (0 <= n)%Z ->
                result = firstn (Z.to_nat n) all
                /\ List.length result
                   = Nat.min (Z.to_nat n)
                             (List.length
                                (filter (selected key operation) logs)))
  /\ (forall n, limit = Some n -> (n < 0)%Z ->
                result = firstn (List.length all - Z.to_nat (- n)) all)
  /\ (Sorted not_earlier (filter (selected key operation) logs) ->
      all = filter (selected key operation) logs)
  /\ (forall self,
         MobileSecretsVault.get_audit_log key limit self
           = (Ok (AuditLogger.get_logs key None limit (audit_logger self)),
              self)).
Proof.
  cbv zeta.
  pose proof (get_logs_unlimited key operation logs) as Hall.
  pose proof (sort_desc_perm (filter (selected key operation) logs)) as Hperm.
  pose proof (sort_desc_sorted (filter (selected key operation) logs)) as Hsort.
  rewrite <- Hall in Hperm, Hsort.
  assert (AuditLogger.get_logs key operation limit logs
          = match limit with
            | Some n => AuditLogger.slice_to
                          n (AuditLogger.get_logs key operation None logs)
            | None => AuditLogger.get_logs key operation None logs
            end) as Hres by now destruct limit.
  assert (forall n l, exists m, AuditLogger.slice_to n l = firstn m l) as Hslice.
  { intros n l. unfold AuditLogger.slice_to.
    destruct (0 <=? n)%Z; eexists; reflexivity. }
  split; [exact Hperm|]. split; [|split; [|split; [|split; [|split; [|split]]]]].
  - rewrite Hres. destruct limit as [n|]; [|exact Hsort].
    destruct (Hslice n (AuditLogger.get_logs key operation None logs))
      as [m ->].
    now apply firstn_sorted.
  - intros e He. rewrite Hres in He.
    assert (In e (AuditLogger.get_logs key operation None logs)) as Hin.
    { destruct limit as [n|]; [|exact He].
      destruct (Hslice n (AuditLogger.get_logs key operation None logs))
        as [m Hm].
      rewrite Hm in He. now apply firstn_in in He. }
    apply (Permutation_in _ (Permutation_sym Hperm)) in Hin.
    apply filter_In in Hin. exact Hin.
  - now intros ->.
  - intros n -> Hn. rewrite get_logs_limited. unfold AuditLogger.slice_to.
    destruct (Z.leb_spec 0 n); [|lia]. split; [reflexivity|].
    rewrite length_firstn. now rewrite <- (Permutation_length Hperm).
  - intros n -> Hn. rewrite get_logs_limited. unfold AuditLogger.slice_to.
    destruct (Z.leb_spec 0 n); [lia|]. f_equal. lia.
  - intros Hs. rewrite Hall. now apply sort_desc_fixed.
  - reflexivity.
Qed.

Lemma X23_witness :
  let logs := audit_logger Ref.vault_t in
  AuditLogger.get_logs (Some "T"%string) None (Some 1%Z) logs
    = firstn 1 (AuditLogger.get_logs (Some "T"%string) None None logs)
  /\ List.length (AuditLogger.get_logs (Some "T"%string) None (Some 1%Z) logs)
     = Nat.min 1 (List.length (filter (selected (Some "T"%string) None) logs)).
Proof.
  intros logs.
  refine (proj1 (proj2 (proj2 (proj2 (proj2
            (X23_get_logs (Some "T"%string) None (Some 1%Z) logs)))))
            1%Z eq_refl _).
  discriminate.
Defined.
